(** * The database resolver and registry of the QL extension

    A shallow embedding of [extensions/ql-vscode/src/databases.ts]:
    the layout prober ([findDataset], [findSourceArchive],
    [getDbSchemeFiles]), the resolver ([resolveDatabase],
    [resolveRawDataset], [resolveDatabaseContents]), the database item
    ([DatabaseItemImpl]) and the registry ([DatabaseManager]).

    The Node and VS Code libraries the file calls ([path], [glob],
    [fs-extra], [vscode.Uri], the workspace memento, the event emitters)
    are not part of the repository.  The file system is an oracle record;
    [path] and [vscode.Uri] are modelled for POSIX hosts.  Promises are
    run to completion one after the other. *)

From Stdlib Require Import Ascii String List Bool Arith Lia.
From stdpp Require Import base option list strings gmap.

Local Open Scope string_scope.
Local Open Scope list_scope.

(** ** Strings, as JavaScript handles them *)

Module Str.

Fixpoint isPrefix (pre s : string) : bool :=
  match pre, s with
  | EmptyString, _ => true
  | String a pre', String b s' => Ascii.eqb b a && isPrefix pre' s'
  | String _ _, EmptyString => false
  end.

Definition startsWith (s pre : string) : bool := isPrefix pre s.

Definition endsWith (s suf : string) : bool :=
  Nat.leb (String.length suf) (String.length s) &&
  String.eqb
    (String.substring (String.length s - String.length suf)
                      (String.length suf) s)
    suf.

Definition isEmpty (s : string) : bool :=
  match s with EmptyString => true | String _ _ => false end.

(** [s.replace(/^\/*/, '')]: drop every leading slash. *)
Fixpoint stripLeadingSlashes (s : string) : string :=
  match s with
  | String c r => if Ascii.eqb c "/" then stripLeadingSlashes r else s
  | EmptyString => EmptyString
  end.

(** [s.replace(c, d)] with a string pattern of one character: JavaScript
    replaces the first occurrence only. *)
Fixpoint replaceFirst (c d : ascii) (s : string) : string :=
  match s with
  | String x r =>
      if Ascii.eqb x c then String d r else String x (replaceFirst c d r)
  | EmptyString => EmptyString
  end.

(** The longest prefix whose characters satisfy [p], and the rest. *)
Fixpoint span (p : ascii -> bool) (s : string) : string * string :=
  match s with
  | String c r =>
      if p c then let '(a, b) := span p r in (String c a, b)
      else (EmptyString, s)
  | EmptyString => (EmptyString, EmptyString)
  end.

Fixpoint forallb (p : ascii -> bool) (s : string) : bool :=
  match s with
  | String c r => p c && forallb p r
  | EmptyString => true
  end.

Definition contains (c : ascii) (s : string) : bool :=
  negb (forallb (fun x => negb (Ascii.eqb x c)) s).

(** [s.split('/')] *)
Fixpoint splitSlash (s : string) : list string :=
  match s with
  | EmptyString => [EmptyString]
  | String c r =>
      if Ascii.eqb c "/" then EmptyString :: splitSlash r
      else match splitSlash r with
           | h :: t => String c h :: t
           | [] => [String c EmptyString]
           end
  end.

(** Is [sub] a substring of [s]? *)
Fixpoint includes (s sub : string) : bool :=
  isPrefix sub s ||
  match s with
  | String _ r => includes r sub
  | EmptyString => false
  end.

(** Position of the last occurrence of [c] in [s]. *)
Fixpoint lastIndexOf (c : ascii) (s : string) : option nat :=
  match s with
  | EmptyString => None
  | String x r =>
      match lastIndexOf c r with
      | Some i => Some (S i)
      | None => if Ascii.eqb x c then Some 0 else None
      end
  end.

(** The value of a hexadecimal digit. *)
Definition hexValue (c : ascii) : option nat :=
  let n := nat_of_ascii c in
  if Nat.leb 48 n && Nat.leb n 57 then Some (n - 48)
  else if Nat.leb 65 n && Nat.leb n 70 then Some (n - 55)
  else if Nat.leb 97 n && Nat.leb n 102 then Some (n - 87)
  else None.

Definition isUpper (c : ascii) : bool :=
  let n := nat_of_ascii c in Nat.leb 65 n && Nat.leb n 90.

(** [c.toLowerCase()], for the letters of ASCII. *)
Definition lowerChar (c : ascii) : ascii :=
  if isUpper c then ascii_of_nat (nat_of_ascii c + 32) else c.

Fixpoint toLowerCase (s : string) : string :=
  match s with
  | String c r => String (lowerChar c) (toLowerCase r)
  | EmptyString => EmptyString
  end.

(** The number of rounds of [for (const c of s)]: one per code point,
    that is, in UTF-8, one per byte that is no continuation byte. *)
Fixpoint codePoints (s : string) : nat :=
  match s with
  | String c r =>
      let n := nat_of_ascii c in
      (if Nat.leb 128 n && Nat.leb n 191 then 0 else 1) + codePoints r
  | EmptyString => 0
  end.

End Str.

(** ** Node's [path] module, POSIX flavour *)

Module Path.

(** [normalizeString]: resolve [.] and [..] segments and drop empty
    ones.  [acc] holds the segments kept so far, last one first. *)
Fixpoint normalizeSegments (allowAboveRoot : bool) (segs acc : list string)
  : list string :=
  match segs with
  | [] => rev acc
  | seg :: rest =>
      if String.eqb seg "" || String.eqb seg "." then
        normalizeSegments allowAboveRoot rest acc
      else if String.eqb seg ".." then
        match acc with
        | top :: below =>
            if String.eqb top ".." then
              normalizeSegments allowAboveRoot rest (seg :: acc)
            else normalizeSegments allowAboveRoot rest below
        | [] =>
            if allowAboveRoot then
              normalizeSegments allowAboveRoot rest [seg]
            else normalizeSegments allowAboveRoot rest []
        end
      else normalizeSegments allowAboveRoot rest (seg :: acc)
  end.

Definition normalizeString (p : string) (allowAboveRoot : bool) : string :=
  String.concat "/" (normalizeSegments allowAboveRoot (Str.splitSlash p) []).

Definition isAbsolute (p : string) : bool := Str.startsWith p "/".

Definition normalize (p : string) : string :=
  if Str.isEmpty p then "."
  else
    let absolute := isAbsolute p in
    let trailingSeparator := Str.endsWith p "/" in
    let q := normalizeString p (negb absolute) in
    if Str.isEmpty q then
      if absolute then "/" else if trailingSeparator then "./" else "."
    else
      (if absolute then "/" else "") +:+ q +:+
      (if trailingSeparator then "/" else "").

(** [path.join(a, b)] *)
Definition join (a b : string) : string :=
  match Str.isEmpty a, Str.isEmpty b with
  | true, true => "."
  | true, false => normalize b
  | false, true => normalize a
  | false, false => normalize (a +:+ "/" +:+ b)
  end.

(** [path.resolve(a, b)] in a process whose working directory is [cwd]:
    the arguments are taken right to left until one is absolute. *)
Definition resolve (cwd a b : string) : string :=
  let r0 := if Str.isEmpty b then "" else b +:+ "/" in
  let abs0 := isAbsolute b in
  let r1 := if abs0 || Str.isEmpty a then r0 else a +:+ "/" +:+ r0 in
  let abs1 := abs0 || isAbsolute a in
  let r2 := if abs1 then r1 else cwd +:+ "/" +:+ r1 in
  let abs2 := abs1 || isAbsolute cwd in
  let q := normalizeString r2 (negb abs2) in
  if abs2 then "/" +:+ q
  else if Str.isEmpty q then "." else q.

(** [path.basename(p)]: the last segment, trailing separators ignored. *)
Definition basename (p : string) : string :=
  List.last
    (List.filter (fun s => negb (Str.isEmpty s)) (Str.splitSlash p)) "".

(** [path.extname(p)]: from the last dot of the base name on, unless that
    dot opens the base name or the base name is [..]. *)
Definition extname (p : string) : string :=
  let base := basename p in
  if String.eqb base ".." then ""
  else match Str.lastIndexOf "." base with
       | None | Some 0 => ""
       | Some i => String.substring i (String.length base - i) base
       end.

End Path.

(** ** [vscode.Uri]

    The five components of a URI.  Strings are sequences of bytes, in
    UTF-8 where a character is not in ASCII.  [toString] is the one with
    [skipEncoding], which is all the program calls; letters outside ASCII
    are not lower-cased.  The validation of the constructor is modelled
    for [parse] ([parseFailure]); [file] and [with] are taken on
    components that pass it. *)

Module Uri.

Record t : Type := mk {
  scheme : string;
  authority : string;
  path : string;
  query : string;
  fragment : string
}.

(** [_schemeFix]: a missing scheme means [file]. *)
Definition schemeFix (s : string) : string :=
  if Str.isEmpty s then "file" else s.

(** [_referenceResolution]: the paths of [file], [http] and [https] URIs
    are made to start with a slash. *)
Definition referenceResolution (s p : string) : string :=
  if String.eqb s "https" || String.eqb s "http" || String.eqb s "file" then
    if Str.isEmpty p then "/"
    else if Str.startsWith p "/" then p
    else "/" +:+ p
  else p.

(** The constructor. *)
Definition make (s a p q f : string) : t :=
  let s' := schemeFix s in
  mk s' a (referenceResolution s' p) q f.

(** [Uri.file(p)]: a path that starts with two slashes names a UNC
    share, whose host becomes the authority. *)
Definition file (p : string) : t :=
  match p with
  | String "/" (String "/" r) =>
      let '(host, rest) := Str.span (fun c => negb (Ascii.eqb c "/")) r in
      make "file" host (if Str.isEmpty rest then "/" else rest) "" ""
  | _ => make "file" "" p "" ""
  end.

Definition schemeStop (c : ascii) : bool :=
  Ascii.eqb c ":" || Ascii.eqb c "/" || Ascii.eqb c "?" || Ascii.eqb c "#".

(** What the scheme group of the parsing expression accepts. *)
Definition isScheme (s : string) : bool :=
  negb (Str.isEmpty s) && Str.forallb (fun c => negb (schemeStop c)) s.

(** What [.] matches from the start of [s]: all up to a line feed, a
    carriage return, or a line or paragraph separator (in UTF-8, the
    bytes 226, 128 and then 168 or 169). *)
Fixpoint untilLineEnd (s : string) : string :=
  match s with
  | EmptyString => EmptyString
  | String c r =>
      let n := nat_of_ascii c in
      if Nat.eqb n 10 || Nat.eqb n 13 then EmptyString
      else if Nat.eqb n 226
              && match r with
                 | String c2 (String c3 _) =>
                     Nat.eqb (nat_of_ascii c2) 128
                     && (Nat.eqb (nat_of_ascii c3) 168
                         || Nat.eqb (nat_of_ascii c3) 169)
                 | _ => false
                 end
      then EmptyString
      else String c (untilLineEnd r)
  end.

(** The groups of the parsing expression: an optional scheme closed by a
    colon, an optional authority opened by two slashes, the path, an
    optional query opened by a question mark and an optional fragment
    opened by a hash sign. *)
Definition components (s : string)
  : string * string * string * string * string :=
  let '(sch, r) := Str.span (fun c => negb (schemeStop c)) s in
  let '(sch, r1) :=
    match r with
    | String ":" r' => if Str.isEmpty sch then ("", s) else (sch, r')
    | _ => ("", s)
    end in
  let '(auth, r2) :=
    match r1 with
    | String "/" (String "/" r') =>
        Str.span (fun c => negb (Ascii.eqb c "/" || Ascii.eqb c "?"
                                 || Ascii.eqb c "#")) r'
    | _ => ("", r1)
    end in
  let '(pth, r3) :=
    Str.span (fun c => negb (Ascii.eqb c "?" || Ascii.eqb c "#")) r2 in
  let '(qry, r4) :=
    match r3 with
    | String "?" r' => Str.span (fun c => negb (Ascii.eqb c "#")) r'
    | _ => ("", r3)
    end in
  let frag :=
    match r4 with String "#" r' => untilLineEnd r' | _ => "" end in
  (sch, auth, pth, qry, frag).

(** [decodeURIComponent], first step: the characters of the text, with
    each [%XX] read as the byte it stands for.  A percent sign without
    two hexadecimal digits after it is malformed. *)
Inductive Token : Type :=
| Literal (c : ascii)
| Escaped (byte : nat).

Fixpoint tokens (s : string) : option (list Token) :=
  match s with
  | EmptyString => Some []
  | String c r =>
      if Ascii.eqb c "%" then
        match r with
        | String h (String l r') =>
            match Str.hexValue h, Str.hexValue l, tokens r' with
            | Some a, Some b, Some ts => Some (Escaped (16 * a + b) :: ts)
            | _, _, _ => None
            end
        | _ => None
        end
      else
        match tokens r with
        | Some ts => Some (Literal c :: ts)
        | None => None
        end
  end.

(** An escaped byte between [lo] and [hi], as a continuation byte must
    be. *)
Definition continuation (lo hi : nat) (t : Token) : option ascii :=
  match t with
  | Escaped b =>
      if Nat.leb lo b && Nat.leb b hi then Some (ascii_of_nat b) else None
  | Literal _ => None
  end.

(** [decodeURIComponent], second step: escaped bytes above ASCII must
    spell the UTF-8 form of a code point, in escapes throughout. *)
Fixpoint octets (ts : list Token) : option string :=
  match ts with
  | [] => Some EmptyString
  | Literal c :: r =>
      match octets r with
      | Some s => Some (String c s)
      | None => None
      end
  | Escaped b :: r =>
      if Nat.ltb b 128 then
        match octets r with
        | Some s => Some (String (ascii_of_nat b) s)
        | None => None
        end
      else if Nat.leb 194 b && Nat.leb b 223 then
        match r with
        | t1 :: r' =>
            match continuation 128 191 t1, octets r' with
            | Some c1, Some s => Some (String (ascii_of_nat b) (String c1 s))
            | _, _ => None
            end
        | _ => None
        end
      else if Nat.leb 224 b && Nat.leb b 239 then
        match r with
        | t1 :: t2 :: r' =>
            match continuation (if Nat.eqb b 224 then 160 else 128)
                               (if Nat.eqb b 237 then 159 else 191) t1,
                  continuation 128 191 t2, octets r' with
            | Some c1, Some c2, Some s =>
                Some (String (ascii_of_nat b) (String c1 (String c2 s)))
            | _, _, _ => None
            end
        | _ => None
        end
      else if Nat.leb 240 b && Nat.leb b 244 then
        match r with
        | t1 :: t2 :: t3 :: r' =>
            match continuation (if Nat.eqb b 240 then 144 else 128)
                               (if Nat.eqb b 244 then 143 else 191) t1,
                  continuation 128 191 t2, continuation 128 191 t3,
                  octets r' with
            | Some c1, Some c2, Some c3, Some s =>
                Some (String (ascii_of_nat b)
                        (String c1 (String c2 (String c3 s))))
            | _, _, _, _ => None
            end
        | _ => None
        end
      else None
  end.

(** [decodeURIComponent(s)]; [None] stands for its [URIError]. *)
Definition decodeURIComponent (s : string) : option string :=
  match tokens s with
  | Some ts => octets ts
  | None => None
  end.

(** [s] between double quotes. *)
Definition quoted (s : string) : string :=
  String (ascii_of_nat 34) (s +:+ String (ascii_of_nat 34) EmptyString).

Definition isWordChar (c : ascii) : bool :=
  let n := nat_of_ascii c in
  (Nat.leb 48 n && Nat.leb n 57) || (Nat.leb 65 n && Nat.leb n 90)
  || (Nat.leb 97 n && Nat.leb n 122) || Nat.eqb n 95.

(** The scheme pattern: a word character, then word characters, [+], [.]
    and [-]. *)
Definition schemePattern (s : string) : bool :=
  match s with
  | String c r =>
      isWordChar c
      && Str.forallb (fun x => isWordChar x || Ascii.eqb x "+"
                               || Ascii.eqb x "." || Ascii.eqb x "-") r
  | EmptyString => false
  end.

(** [_validateUri], outside strict mode: the message of the error it
    throws, if it throws. *)
Definition validateUri (u : t) : option string :=
  if negb (Str.isEmpty (scheme u)) && negb (schemePattern (scheme u)) then
    Some "[UriError]: Scheme contains illegal characters."
  else if Str.isEmpty (path u) then None
  else if negb (Str.isEmpty (authority u)) then
    if Str.startsWith (path u) "/" then None
    else Some ("[UriError]: If a URI contains an authority component, then the path component must either be empty or begin with a slash ("
               +:+ quoted "/" +:+ ") character")
  else if Str.startsWith (path u) "//" then
    Some ("[UriError]: If a URI does not contain an authority component, then the path cannot begin with two slash characters ("
          +:+ quoted "//" +:+ ")")
  else None.

(** [Uri.parse(s)] when it returns: the groups, percent-decoded but for
    the scheme, handed to the constructor. *)
Definition parse (s : string) : t :=
  let '(sch, auth, pth, qry, frag) := components s in
  make sch (default auth (decodeURIComponent auth))
       (default pth (decodeURIComponent pth))
       (default qry (decodeURIComponent qry))
       (default frag (decodeURIComponent frag)).

(** [Uri.parse(s)] when it throws: the message of the error, that of
    [decodeURIComponent] on a malformed group or that of the
    constructor. *)
Definition parseFailure (s : string) : option string :=
  let '(sch, auth, pth, qry, frag) := components s in
  match decodeURIComponent auth, decodeURIComponent pth,
        decodeURIComponent qry, decodeURIComponent frag with
  | Some _, Some _, Some _, Some _ => validateUri (parse s)
  | _, _, _, _ => Some "URI malformed"
  end.

(** [u.with({ scheme: s })], [u.with({ path: p })] and
    [u.with({ fragment: f })]. *)
Definition with_scheme (s : string) (u : t) : t :=
  make s (authority u) (path u) (query u) (fragment u).

Definition with_path (p : string) (u : t) : t :=
  make (scheme u) (authority u) p (query u) (fragment u).

Definition with_fragment (f : string) (u : t) : t :=
  make (scheme u) (authority u) (path u) (query u) f.

Definition isLetter (c : ascii) : bool :=
  let n := nat_of_ascii c in
  (Nat.leb 65 n && Nat.leb n 90) || (Nat.leb 97 n && Nat.leb n 122).

Definition toLowerCase (c : ascii) : ascii :=
  let n := nat_of_ascii c in
  if Nat.leb 65 n && Nat.leb n 90 then ascii_of_nat (n + 32) else c.

(** [u.fsPath] on a POSIX host ([uriToFsPath]). *)
Definition fsPath (u : t) : string :=
  if negb (Str.isEmpty (authority u))
     && Nat.ltb 1 (String.length (path u))
     && String.eqb (scheme u) "file"
  then "//" +:+ authority u +:+ path u
  else match path u with
       | String "/" (String d (String ":" r)) =>
           if isLetter d then String (toLowerCase d) (String ":" r)
           else path u
       | _ => path u
       end.

(** [encodeURIComponentMinimal]: only [#] and [?] are escaped. *)
Fixpoint encodeMinimal (s : string) : string :=
  match s with
  | String c r =>
      if Ascii.eqb c "#" then "%23" +:+ encodeMinimal r
      else if Ascii.eqb c "?" then "%3F" +:+ encodeMinimal r
      else String c (encodeMinimal r)
  | EmptyString => EmptyString
  end.

(** The drive letter of [/C:/...] or [C:/...] is printed in lower case. *)
Definition lowerDriveLetter (p : string) : string :=
  match p with
  | String a (String b (String c r)) =>
      if Ascii.eqb a "/" && Ascii.eqb c ":" then
        if Str.isUpper b
        then String a (String (Str.lowerChar b) (String c r)) else p
      else if Ascii.eqb b ":" then
        if Str.isUpper a
        then String (Str.lowerChar a) (String b (String c r)) else p
      else p
  | String a (String b EmptyString) =>
      if Ascii.eqb b ":" then
        if Str.isUpper a
        then String (Str.lowerChar a) (String b EmptyString) else p
      else p
  | _ => p
  end.

(** User and password before [@], each escaped; then the host in lower
    case, escaped up to the colon of the port. *)
Definition formatAuthority (a : string) : string :=
  let '(userinfo, host) :=
    match Str.span (fun c => negb (Ascii.eqb c "@")) a with
    | (u, String _ h) => (Some u, h)
    | (_, EmptyString) => (None, a)
    end in
  match userinfo with
  | Some u =>
      match Str.span (fun c => negb (Ascii.eqb c ":")) u with
      | (user, String _ password) =>
          encodeMinimal user +:+ ":" +:+ encodeMinimal password
      | (user, EmptyString) => encodeMinimal user
      end +:+ "@"
  | None => ""
  end +:+
  match Str.span (fun c => negb (Ascii.eqb c ":"))
                 (Str.toLowerCase host) with
  | (h, port) => encodeMinimal h +:+ port
  end.

(** [u.toString(true)] *)
Definition toString (u : t) : string :=
  (if Str.isEmpty (scheme u) then "" else scheme u +:+ ":") +:+
  (if negb (Str.isEmpty (authority u)) || String.eqb (scheme u) "file"
   then "//" else "") +:+
  (if Str.isEmpty (authority u) then ""
   else formatAuthority (authority u)) +:+
  (if Str.isEmpty (path u) then ""
   else encodeMinimal (lowerDriveLetter (path u))) +:+
  (if Str.isEmpty (query u) then "" else "?" +:+ encodeMinimal (query u)) +:+
  (if Str.isEmpty (fragment u) then "" else "#" +:+ fragment u).

Definition eqb (u v : t) : bool :=
  String.eqb (scheme u) (scheme v) && String.eqb (authority u) (authority v)
  && String.eqb (path u) (path v) && String.eqb (query u) (query v)
  && String.eqb (fragment u) (fragment v).

End Uri.

(** ** The host: file system, messages, errors *)

(** What the prober asks of the disk: [glob(pattern, { cwd })],
    [fs.pathExists(p)], [fs.existsSync(p)], and the working directory of the
    process, which [path.resolve] falls back on. *)
Record FileSystem : Type := {
  glob : string -> string -> list string;
  pathExists : string -> bool;
  cwd : string
}.

(** ** A disk to run the prober on

    Directories with their entries in the order [glob] lists them; an
    entry is a name and whether it is a directory.  [Disk.host] answers
    the three patterns of the prober the way [glob] does: [*] stands for
    any run of characters, a leading dot is never matched by [*], and a
    pattern closed by a slash only matches directories. *)

Module Disk.

Definition t : Type := list (string * list (string * bool)).

(** The absolute, normalised form of a path, without closing slash. *)
Definition key (p : string) : string := Path.resolve "/" p "".

Definition entries (d : t) (dir : string) : option (list (string * bool)) :=
  snd <$> List.find (fun '(k, _) => String.eqb k (key dir)) d.

Definition exists_ (d : t) (p : string) : bool :=
  let k := key p in
  String.eqb k "/"
  || bool_decide (is_Some (entries d k))
  || match entries d (Path.resolve "/" k "..") with
     | Some es =>
         List.existsb (fun '(n, _) => String.eqb n (Path.basename k)) es
     | None => false
     end.

Fixpoint wildcard (pat : string) : string -> bool :=
  match pat with
  | EmptyString => Str.isEmpty
  | String "*" pat' =>
      fix star (n : string) : bool :=
        wildcard pat' n
        || match n with
           | String _ n' => star n'
           | EmptyString => false
           end
  | String c pat' =>
      fun n =>
        match n with
        | String x n' => Ascii.eqb c x && wildcard pat' n'
        | EmptyString => false
        end
  end.

Definition matches (pat n : string) : bool :=
  wildcard pat n
  && (negb (Str.startsWith n ".") || Str.startsWith pat ".").

Fixpoint globSegments (d : t) (dir pre : string) (segs : list string)
  : list string :=
  match segs with
  | [] => []
  | [seg] =>
      flat_map (fun '(n, _) => if matches seg n then [pre +:+ n] else [])
               (default [] (entries d dir))
  | seg :: (next :: _) as rest =>
      flat_map
        (fun '(n, isDir) =>
           if isDir && matches seg n then
             if Str.isEmpty next && Nat.eqb (length rest) 1
             then [pre +:+ n +:+ "/"]
             else globSegments d (dir +:+ "/" +:+ n) (pre +:+ n +:+ "/")
                               rest
           else [])
        (default [] (entries d dir))
  end.

Definition host (d : t) : FileSystem :=
  {| glob pattern dir := globSegments d dir "" (Str.splitSlash pattern);
     pathExists := exists_ d;
     cwd := "/" |}.

End Disk.

(** The two error classes the file throws. *)
Inductive JsError : Type :=
| InvalidDatabaseError (message : string)
| Error (message : string).

Definition errorMessage (e : JsError) : string :=
  match e with InvalidDatabaseError m | Error m => m end.

(** What the user is shown. *)
Inductive Message : Type :=
| ErrorMessage (text : string)
| WarningMessage (text : string)
| InformationMessage (text : string).

Inductive Outcome (A : Type) : Type :=
| Returns (a : A)
| Throws (e : JsError).
Arguments Returns {A} a.
Arguments Throws {A} e.

(** A computation that may throw and that shows messages on its way. *)
Definition Eff (A : Type) : Type := Outcome A * list Message.

Definition ret {A} (a : A) : Eff A := (Returns a, []).
Definition throw {A} (e : JsError) : Eff A := (Throws e, []).
Definition tell (m : Message) : Eff unit := (Returns tt, [m]).

Definition bind {A B} (m : Eff A) (k : A -> Eff B) : Eff B :=
  match m with
  | (Returns a, log) => let '(r, log') := k a in (r, log ++ log')
  | (Throws e, log) => (Throws e, log)
  end.

Notation "x <- m ;; k" := (bind m (fun x => k))
  (at level 100, m at next level, right associativity).
Notation "m ;;; k" := (bind m (fun _ => k))
  (at level 100, right associativity).

(** Modelled from the spec: [showAndLogErrorMessage] of [helpers.ts], which
    is not among the sources.  The spec has a user-notification
    collaborator for warnings, errors and information, whose signals are
    not fatal: the message is shown and the caller goes on. *)
Definition showAndLogErrorMessage (s : string) : Eff unit :=
  tell (ErrorMessage s).

(** Modelled from the spec: [showAndLogWarningMessage] of [helpers.ts],
    in the same way. *)
Definition showAndLogWarningMessage (s : string) : Eff unit :=
  tell (WarningMessage s).

(** Modelled from the spec: [showAndLogInformationMessage] of
    [helpers.ts], in the same way. *)
Definition showAndLogInformationMessage (s : string) : Eff unit :=
  tell (InformationMessage s).

(** ** The data model *)

Record DatabaseOptions : Type := {
  opt_displayName : option string;
  opt_ignoreSourceArchive : option bool
}.

Record FullDatabaseOptions : Type := {
  displayName : option string;
  ignoreSourceArchive : bool
}.

Record PersistedDatabaseItem : Type := {
  uri : string;
  options : option DatabaseOptions
}.

Inductive DatabaseKind : Type :=
| Database
| RawDataset.

Record DatabaseContents : Type := {
  kind : DatabaseKind;
  name : string;
  datasetUri : Uri.t;
  sourceArchiveUri : option Uri.t;
  dbSchemeUri : option Uri.t
}.

Definition set_dbSchemeUri (u : option Uri.t) (c : DatabaseContents)
  : DatabaseContents :=
  {| kind := kind c; name := name c; datasetUri := datasetUri c;
     sourceArchiveUri := sourceArchiveUri c; dbSchemeUri := u |}.

Section Databases.

(** [zipArchiveScheme] comes from [archive-filesystem-provider.ts], which
    is outside this development: any scheme name will do. *)
Variable zipArchiveScheme : string.

(** It is a scheme name: not empty, and free of [:], [/], [?] and [#]. *)
Hypothesis zipArchiveScheme_isScheme : Uri.isScheme zipArchiveScheme = true.

(** ** Layout prober *)

Definition findDataset (fs : FileSystem) (parentDirectory : string)
  : Eff Uri.t :=
  let dbRelativePaths := glob fs "db-*/" parentDirectory in
  let dbRelativePaths :=
    if Nat.eqb (length dbRelativePaths) 0
    then glob fs "working/db-*/" parentDirectory
    else dbRelativePaths in
  match dbRelativePaths with
  | [] =>
      throw (InvalidDatabaseError
               ("'" +:+ parentDirectory +:+
                "' does not contain a dataset directory."))
  | first :: _ =>
      let dbAbsolutePath := Path.join parentDirectory first in
      (if Nat.ltb 1 (length dbRelativePaths)
       then showAndLogWarningMessage
              ("Found multiple dataset directories in database, using '"
               +:+ dbAbsolutePath +:+ "'.")
       else ret tt) ;;;
      ret (Uri.file dbAbsolutePath)
  end.

(** The [for] loop of [findSourceArchive]: the first stem at which the
    directory or the archive exists decides. *)
Fixpoint findSourceArchive_loop (fs : FileSystem) (databasePath : string)
  (relativePaths : list string) : option Uri.t :=
  match relativePaths with
  | [] => None
  | relativePath :: rest =>
      let basePath := Path.join databasePath relativePath in
      let zipPath := basePath +:+ ".zip" in
      if pathExists fs basePath then Some (Uri.file basePath)
      else if pathExists fs zipPath
      then Some (Uri.with_scheme zipArchiveScheme (Uri.file zipPath))
      else findSourceArchive_loop fs databasePath rest
  end.

Definition findSourceArchive (fs : FileSystem) (databasePath : string)
  (silent : bool) : Eff (option Uri.t) :=
  let relativePaths := ["src"; "output/src_archive"] in
  match findSourceArchive_loop fs databasePath relativePaths with
  | Some found => ret (Some found)
  | None =>
      (if negb silent
       then showAndLogInformationMessage
              ("Could not find source archive for database '" +:+
               databasePath +:+ "'. Assuming paths are absolute.")
       else ret tt) ;;;
      ret None
  end.

(** ** Resolver *)

Definition resolveDatabase (fs : FileSystem) (databasePath : string)
  : Eff (option DatabaseContents) :=
  let name_ := Path.basename databasePath in
  datasetUri_ <- findDataset fs databasePath ;;
  sourceArchiveUri_ <- findSourceArchive fs databasePath false ;;
  ret (Some {| kind := Database; name := name_; datasetUri := datasetUri_;
               sourceArchiveUri := sourceArchiveUri_;
               dbSchemeUri := None |}).

Definition getDbSchemeFiles (fs : FileSystem) (dbDirectory : string)
  : list string :=
  glob fs "*.dbscheme" dbDirectory.

Definition resolveRawDataset (fs : FileSystem) (datasetPath : string)
  : option DatabaseContents :=
  if Nat.ltb 0 (length (getDbSchemeFiles fs datasetPath)) then
    Some {| kind := RawDataset; name := Path.basename datasetPath;
            datasetUri := Uri.file datasetPath;
            sourceArchiveUri := None; dbSchemeUri := None |}
  else None.

(** The closing block of [resolveDatabaseContents]: look for a single
    dbscheme file in the dataset directory of [contents]. *)
Definition lookForSingleDbScheme (fs : FileSystem) (databasePath : string)
  (contents : DatabaseContents) : Eff DatabaseContents :=
  let dbPath := Uri.fsPath (datasetUri contents) in
  let dbSchemeFiles := getDbSchemeFiles fs dbPath in
  match dbSchemeFiles with
  | [] =>
      throw (InvalidDatabaseError
               ("Database '" +:+ databasePath +:+
                "' does not contain a QL dbscheme under '" +:+ dbPath +:+
                "'."))
  | first :: rest =>
      if Nat.ltb 1 (length dbSchemeFiles) then
        throw (InvalidDatabaseError
                 ("Database '" +:+ databasePath +:+
                  "' contains multiple QL dbschemes under '" +:+ dbPath +:+
                  "'."))
      else
        ret (set_dbSchemeUri
               (Some (Uri.file (Path.resolve (cwd fs) dbPath first)))
               contents)
  end.

Definition resolveDatabaseContents (fs : FileSystem) (uri_ : Uri.t)
  : Eff DatabaseContents :=
  if negb (String.eqb (Uri.scheme uri_) "file") then
    throw (Error ("Database URI scheme '" +:+ Uri.scheme uri_ +:+
                  "' not supported; only 'file' URIs are supported."))
  else
    let databasePath := Uri.fsPath uri_ in
    if negb (pathExists fs databasePath) then
      throw (InvalidDatabaseError
               ("Database '" +:+ databasePath +:+ "' does not exist."))
    else
      resolved <- resolveDatabase fs databasePath ;;
      let contents :=
        match resolved with
        | Some c => Some c
        | None => resolveRawDataset fs databasePath
        end in
      match contents with
      | None =>
          throw (InvalidDatabaseError
                   ("'" +:+ databasePath +:+ "' is not a valid database."))
      | Some c => lookForSingleDbScheme fs databasePath c
      end.

(** ** Database item

    [DatabaseItemImpl]: the fields of the class.  The [onChanged] callback
    handed to the constructor is not stored: [refresh] reports the calls it
    makes to it, each with the item as the callback sees it. *)

Record DatabaseItemImpl : Type := {
  databaseUri : Uri.t;
  _error : option JsError;
  _contents : option DatabaseContents;
  item_options : FullDatabaseOptions
}.

(** The constructor. *)
Definition new_DatabaseItemImpl (databaseUri_ : Uri.t)
  (contents : option DatabaseContents) (options_ : FullDatabaseOptions)
  : DatabaseItemImpl :=
  {| databaseUri := databaseUri_; _error := None; _contents := contents;
     item_options := options_ |}.

(** The getter [name]; an empty display name is falsy. *)
Definition item_name (this : DatabaseItemImpl) : string :=
  match displayName (item_options this) with
  | Some (String c r) => String c r
  | _ =>
      match _contents this with
      | Some c => name c
      | None => Path.basename (Uri.fsPath (databaseUri this))
      end
  end.

(** The getter [sourceArchive]. *)
Definition sourceArchive (this : DatabaseItemImpl) : option Uri.t :=
  if ignoreSourceArchive (item_options this) then None
  else match _contents this with
       | None => None
       | Some c => sourceArchiveUri c
       end.

(** What a call of [refresh] leaves behind: how it ended and what it
    showed, the item afterwards, and the calls of [onChanged]. *)
Record Refreshed : Type := {
  refresh_outcome : Eff unit;
  refresh_item : DatabaseItemImpl;
  refresh_onChanged : list DatabaseItemImpl
}.

Definition refresh (fs : FileSystem) (this : DatabaseItemImpl) : Refreshed :=
  match resolveDatabaseContents fs (databaseUri this) with
  | (Returns c, log) =>
      let this' := {| databaseUri := databaseUri this; _error := None;
                      _contents := Some c;
                      item_options := item_options this |} in
      {| refresh_outcome := (Returns tt, log); refresh_item := this';
         refresh_onChanged := [this'] |}
  | (Throws e, log) =>
      let this' := {| databaseUri := databaseUri this; _error := Some e;
                      _contents := None;
                      item_options := item_options this |} in
      {| refresh_outcome := (Throws e, log); refresh_item := this';
         refresh_onChanged := [this'] |}
  end.

Definition resolveSourceFile (this : DatabaseItemImpl) (file : option string)
  : Uri.t :=
  match sourceArchive this with
  | None =>
      match file with
      | Some f => Uri.file f
      | None => databaseUri this
      end
  | Some sourceArchive_ =>
      match file with
      | Some f =>
          let relativeFilePath :=
            Str.replaceFirst ":" "_" (Str.stripLeadingSlashes f) in
          if String.eqb (Uri.scheme sourceArchive_) zipArchiveScheme then
            Uri.with_fragment relativeFilePath sourceArchive_
          else
            let newPath := Uri.path sourceArchive_ in
            let newPath :=
              if negb (Str.endsWith newPath "/") then newPath +:+ "/"
              else newPath in
            let newPath := newPath +:+ relativeFilePath in
            Uri.with_path newPath sourceArchive_
      | None => sourceArchive_
      end
  end.

Definition persistedOptions (o : FullDatabaseOptions) : DatabaseOptions :=
  {| opt_displayName := displayName o;
     opt_ignoreSourceArchive := Some (ignoreSourceArchive o) |}.

Definition getPersistedState (this : DatabaseItemImpl)
  : PersistedDatabaseItem :=
  {| uri := Uri.toString (databaseUri this);
     options := Some (persistedOptions (item_options this)) |}.

Definition hasDbInfo (fs : FileSystem) (this : DatabaseItemImpl) : bool :=
  pathExists fs (Path.join (Uri.fsPath (databaseUri this)) ".dbinfo").

(** [Uri.parse] of the archive scheme and [:/] is taken to return, as it
    does for a well-formed scheme name. *)
Definition getExplorerUri (this : DatabaseItemImpl) : option Uri.t :=
  match sourceArchive this with
  | None => None
  | Some sourceArchive_ =>
      if negb (Str.endsWith (Uri.fsPath sourceArchive_) ".zip") then None
      else Some (Uri.with_fragment (Uri.fsPath sourceArchive_)
                   (Uri.parse (zipArchiveScheme +:+ ":/")))
  end.

Definition belongsToExplorerUri (this : DatabaseItemImpl) (uri_ : Uri.t)
  : bool :=
  match getExplorerUri this with
  | None => false
  | Some sourceArchiveUri_ =>
      String.eqb (Uri.scheme uri_) zipArchiveScheme
      && String.eqb (Uri.fragment uri_) (Uri.fsPath sourceArchiveUri_)
  end.

(** ** Database registry

    Items are objects: the registry and its callers hold references to
    them.  [heap] maps a reference to the object it points to. *)

Definition CURRENT_DB : string := "currentDatabase".
Definition DB_LIST : string := "databaseList".

(** What the workspace memento stores under a key. *)
Inductive StateValue : Type :=
| StringValue (s : string)
| DatabaseListValue (l : list PersistedDatabaseItem).

(** The two events of the manager, with the reference they carry. *)
Inductive Event : Type :=
| DidChangeDatabaseItem (item : option nat)
| DidChangeCurrentDatabaseItem (item : option nat).

(** What a listener finds when an event reaches it. *)
Record Seen : Type := {
  seen_heap : gmap nat DatabaseItemImpl;
  seen_databaseItems : list nat;
  seen_currentDatabaseItem : option nat;
  seen_workspaceState : gmap string StateValue
}.

Record DatabaseManager : Type := {
  heap : gmap nat DatabaseItemImpl;
  nextRef : nat;
  _databaseItems : list nat;
  _currentDatabaseItem : option nat;
  workspaceState : gmap string StateValue;
  fired : list (Event * Seen);
  shown : list Message
}.

(** The constructor, before [loadPersistedState] runs. *)
Definition new_DatabaseManager (stored : gmap string StateValue)
  : DatabaseManager :=
  {| heap := ∅; nextRef := 0; _databaseItems := [];
     _currentDatabaseItem := None; workspaceState := stored;
     fired := []; shown := [] |}.

Definition set_heap (h : gmap nat DatabaseItemImpl) (m : DatabaseManager)
  : DatabaseManager :=
  {| heap := h; nextRef := nextRef m; _databaseItems := _databaseItems m;
     _currentDatabaseItem := _currentDatabaseItem m;
     workspaceState := workspaceState m; fired := fired m;
     shown := shown m |}.

Definition set_databaseItems (l : list nat) (m : DatabaseManager)
  : DatabaseManager :=
  {| heap := heap m; nextRef := nextRef m; _databaseItems := l;
     _currentDatabaseItem := _currentDatabaseItem m;
     workspaceState := workspaceState m; fired := fired m;
     shown := shown m |}.

Definition set_currentDatabaseItem (c : option nat) (m : DatabaseManager)
  : DatabaseManager :=
  {| heap := heap m; nextRef := nextRef m; _databaseItems := _databaseItems m;
     _currentDatabaseItem := c;
     workspaceState := workspaceState m; fired := fired m;
     shown := shown m |}.

Definition set_workspaceState (w : gmap string StateValue)
  (m : DatabaseManager) : DatabaseManager :=
  {| heap := heap m; nextRef := nextRef m; _databaseItems := _databaseItems m;
     _currentDatabaseItem := _currentDatabaseItem m;
     workspaceState := w; fired := fired m; shown := shown m |}.

Definition show (log : list Message) (m : DatabaseManager)
  : DatabaseManager :=
  {| heap := heap m; nextRef := nextRef m; _databaseItems := _databaseItems m;
     _currentDatabaseItem := _currentDatabaseItem m;
     workspaceState := workspaceState m; fired := fired m;
     shown := shown m ++ log |}.

Definition see (m : DatabaseManager) : Seen :=
  {| seen_heap := heap m; seen_databaseItems := _databaseItems m;
     seen_currentDatabaseItem := _currentDatabaseItem m;
     seen_workspaceState := workspaceState m |}.

(** [emitter.fire(e)]: listeners run at once, on the state as it is. *)
Definition fire (e : Event) (m : DatabaseManager) : DatabaseManager :=
  {| heap := heap m; nextRef := nextRef m; _databaseItems := _databaseItems m;
     _currentDatabaseItem := _currentDatabaseItem m;
     workspaceState := workspaceState m;
     fired := fired m ++ [(e, see m)]; shown := shown m |}.

(** [new DatabaseItemImpl(...)]: a fresh object on the heap. *)
Definition allocate (item : DatabaseItemImpl) (m : DatabaseManager)
  : nat * DatabaseManager :=
  (nextRef m,
   {| heap := <[nextRef m := item]> (heap m); nextRef := S (nextRef m);
      _databaseItems := _databaseItems m;
      _currentDatabaseItem := _currentDatabaseItem m;
      workspaceState := workspaceState m; fired := fired m;
      shown := shown m |}).

(** [memento.update(key, value)]; [undefined] removes the key. *)
Definition memento_update (key : string) (value : option StateValue)
  (w : gmap string StateValue) : gmap string StateValue :=
  match value with
  | Some v => <[key := v]> w
  | None => delete key w
  end.

Definition updatePersistedCurrentDatabaseItem (this : DatabaseManager)
  : DatabaseManager :=
  set_workspaceState
    (memento_update CURRENT_DB
       (match _currentDatabaseItem this with
        | Some r =>
            (fun item => StringValue (Uri.toString (databaseUri item)))
              <$> heap this !! r
        | None => None
        end)
       (workspaceState this))
    this.

Definition updatePersistedDatabaseList (this : DatabaseManager)
  : DatabaseManager :=
  set_workspaceState
    (memento_update DB_LIST
       (Some (DatabaseListValue
                (omap (fun r => getPersistedState <$> heap this !! r)
                      (_databaseItems this))))
       (workspaceState this))
    this.

Definition addDatabaseItem (item : nat) (this : DatabaseManager)
  : DatabaseManager :=
  let this := set_databaseItems (_databaseItems this ++ [item]) this in
  let this := updatePersistedDatabaseList this in
  fire (DidChangeDatabaseItem None) this.

(** [item.refresh()] on the object behind a reference; the [onChanged]
    callback of an item of the registry fires [onDidChangeDatabaseItem].
    References come from [allocate], so the lookup succeeds; a reference
    to nothing is made to throw. *)
Definition refreshItem (fs : FileSystem) (item : nat)
  (this : DatabaseManager) : Outcome unit * DatabaseManager :=
  match heap this !! item with
  | None => (Throws (Error "not an object"), this)
  | Some obj =>
      let r := refresh fs obj in
      let this := set_heap (<[item := refresh_item r]> (heap this)) this in
      let this := show (snd (refresh_outcome r)) this in
      let this :=
        fold_left (fun m _ => fire (DidChangeDatabaseItem (Some item)) m)
                  (refresh_onChanged r) this in
      (fst (refresh_outcome r), this)
  end.

Definition openDatabase (fs : FileSystem) (uri_ : Uri.t)
  (options_ : option DatabaseOptions) (this : DatabaseManager)
  : Outcome nat * DatabaseManager :=
  match resolveDatabaseContents fs uri_ with
  | (Throws e, log) => (Throws e, show log this)
  | (Returns contents, log) =>
      let this := show log this in
      let realOptions :=
        match options_ with
        | Some o => o
        | None => {| opt_displayName := None;
                     opt_ignoreSourceArchive := None |}
        end in
      let isQLTestDatabase :=
        String.eqb (Path.extname (Uri.fsPath uri_)) ".testproj" in
      let fullOptions :=
        {| ignoreSourceArchive :=
             match opt_ignoreSourceArchive realOptions with
             | Some b => b
             | None => isQLTestDatabase
             end;
           displayName := opt_displayName realOptions |} in
      let '(databaseItem, this) :=
        allocate (new_DatabaseItemImpl uri_ (Some contents) fullOptions)
                 this in
      (Returns databaseItem, addDatabaseItem databaseItem this)
  end.

(** [vscode.Uri.parse(state.uri)] is evaluated before the item is
    built: when it throws, nothing has happened yet. *)
Definition createDatabaseItemFromPersistedState
  (state : PersistedDatabaseItem) (this : DatabaseManager)
  : Outcome nat * DatabaseManager :=
  let displayName_ :=
    match options state with
    | Some o => opt_displayName o
    | None => None
    end in
  let ignoreSourceArchive_ :=
    match options state with
    | Some o => default false (opt_ignoreSourceArchive o)
    | None => false
    end in
  let fullOptions :=
    {| ignoreSourceArchive := ignoreSourceArchive_;
       displayName := displayName_ |} in
  match Uri.parseFailure (uri state) with
  | Some message => (Throws (Error message), this)
  | None =>
      let '(item, this) :=
        allocate (new_DatabaseItemImpl (Uri.parse (uri state)) None
                    fullOptions)
                 this in
      (Returns item, addDatabaseItem item this)
  end.

Definition setCurrentDatabaseItem (fs : FileSystem) (item : option nat)
  (skipRefresh : bool) (this : DatabaseManager)
  : Outcome unit * DatabaseManager :=
  let '(refreshed, this) :=
    match item with
    | Some r =>
        if negb skipRefresh then refreshItem fs r this
        else (Returns tt, this)
    | None => (Returns tt, this)
    end in
  match refreshed with
  | Throws e => (Throws e, this)
  | Returns _ =>
      if negb (bool_decide (_currentDatabaseItem this = item)) then
        let this := set_currentDatabaseItem item this in
        let this := updatePersistedCurrentDatabaseItem this in
        (Returns tt, fire (DidChangeCurrentDatabaseItem item) this)
      else (Returns tt, this)
  end.

(** What [for (const database of databases)] goes through.  A stored
    list gives its entries.  A stored string gives its characters, one by
    one: a character has neither [uri] nor [options]. *)
Definition storedDatabases (stored : option StateValue)
  : list (option PersistedDatabaseItem) :=
  match stored with
  | Some (DatabaseListValue databases) => Some <$> databases
  | Some (StringValue s) => replicate (Str.codePoints s) None
  | None => []
  end.

(** [currentDatabaseUri === database.uri] *)
Definition sameUri (currentDatabaseUri : option StateValue)
  (uri_ : option string) : bool :=
  match currentDatabaseUri, uri_ with
  | Some (StringValue s), Some u => String.eqb s u
  | None, None => true
  | _, _ => false
  end.

(** The body of the [for] loop of [loadPersistedState].  For a character
    [state.uri] is [undefined], which [Uri.parse] reads as the text
    [undefined].  What the refresh throws is caught inside the loop; what
    the creation of the item throws is not. *)
Definition loadPersistedDatabase (fs : FileSystem)
  (currentDatabaseUri : option StateValue)
  (database : option PersistedDatabaseItem) (this : DatabaseManager)
  : Outcome unit * DatabaseManager :=
  let state := default {| uri := "undefined"; options := None |} database in
  match createDatabaseItemFromPersistedState state this with
  | (Throws e, this) => (Throws e, this)
  | (Returns databaseItem, this) =>
      match refreshItem fs databaseItem this with
      | (Returns _, this) =>
          if sameUri currentDatabaseUri (uri <$> database) then
            (Returns tt,
             snd (setCurrentDatabaseItem fs (Some databaseItem) true this))
          else (Returns tt, this)
      | (Throws _, this) => (Returns tt, this)
      end
  end.

(** The loop, inside the outer [try]: the first round that throws ends
    it, and the outer [catch] shows its message. *)
Fixpoint loadPersistedDatabases (fs : FileSystem)
  (currentDatabaseUri : option StateValue)
  (databases : list (option PersistedDatabaseItem)) (this : DatabaseManager)
  : DatabaseManager :=
  match databases with
  | [] => this
  | database :: rest =>
      match loadPersistedDatabase fs currentDatabaseUri database this with
      | (Returns _, this) =>
          loadPersistedDatabases fs currentDatabaseUri rest this
      | (Throws _, this) =>
          show [ErrorMessage "Database list loading failed: ${}"] this
      end
  end.

Definition loadPersistedState (fs : FileSystem) (this : DatabaseManager)
  : DatabaseManager :=
  let currentDatabaseUri := workspaceState this !! CURRENT_DB in
  let databases := storedDatabases (workspaceState this !! DB_LIST) in
  loadPersistedDatabases fs currentDatabaseUri databases this.

Definition findDatabaseItem (uri_ : Uri.t) (this : DatabaseManager)
  : option nat :=
  let uriString := Uri.toString uri_ in
  List.find
    (fun r =>
       match heap this !! r with
       | Some item => String.eqb (Uri.toString (databaseUri item)) uriString
       | None => false
       end)
    (_databaseItems this).

(** [items.splice(index, 1)] at the first index holding [item], if any. *)
Fixpoint spliceFirst (item : nat) (items : list nat) : list nat :=
  match items with
  | [] => []
  | r :: rest => if Nat.eqb r item then rest else r :: spliceFirst item rest
  end.

Definition removeDatabaseItem (item : nat) (this : DatabaseManager)
  : DatabaseManager :=
  let this :=
    if bool_decide (_currentDatabaseItem this = Some item)
    then set_currentDatabaseItem None this
    else this in
  let this := set_databaseItems (spliceFirst item (_databaseItems this)) this in
  let this := updatePersistedDatabaseList this in
  fire (DidChangeDatabaseItem None) this.

(** ** What the spec says, in its own words *)

(** The four places where a source archive is looked for, in the order of
    the spec, each with whether it is the archive form. *)
Definition spec_sourceArchiveCandidates (root : string)
  : list (string * bool) :=
  [ (Path.join root "src", false);
    (Path.join root "src" +:+ ".zip", true);
    (Path.join root "output/src_archive", false);
    (Path.join root "output/src_archive" +:+ ".zip", true) ].

Definition spec_sourceArchiveLocation (candidate : string * bool) : Uri.t :=
  if snd candidate
  then Uri.with_scheme zipArchiveScheme (Uri.file (fst candidate))
  else Uri.file (fst candidate).

(** "Replace any colon characters with underscore". *)
Fixpoint spec_replaceEveryColon (s : string) : string :=
  match s with
  | String c r =>
      String (if Ascii.eqb c ":" then "_"%char else c)
             (spec_replaceEveryColon r)
  | EmptyString => EmptyString
  end.

(** A run of [n] slashes. *)
Fixpoint slashes (n : nat) : string :=
  match n with
  | 0 => EmptyString
  | S k => String "/" (slashes k)
  end.

(** The states of an item: built by the constructor, then refreshed any
    number of times, on whatever the disk holds at that time. *)
Inductive reachable : DatabaseItemImpl -> Prop :=
| reachable_new (databaseUri_ : Uri.t) (contents : option DatabaseContents)
    (options_ : FullDatabaseOptions) :
    reachable (new_DatabaseItemImpl databaseUri_ contents options_)
| reachable_refresh (fs : FileSystem) (item : DatabaseItemImpl) :
    reachable item -> reachable (refresh_item (refresh fs item)).

(** The warning of [findDataset] when the search that decided found
    [found] directories. *)
Definition ambiguityWarning (chosen : string) (found : list string)
  : list Message :=
  match found with
  | _ :: _ :: _ =>
      [WarningMessage
         ("Found multiple dataset directories in database, using '"
          +:+ chosen +:+ "'.")]
  | _ => []
  end.

(** The two messages of the schema step. *)
Definition noDbSchemeMessage (databasePath dbPath : string) : string :=
  "Database '" +:+ databasePath +:+
  "' does not contain a QL dbscheme under '" +:+ dbPath +:+ "'.".

Definition multipleDbSchemesMessage (databasePath dbPath : string) : string :=
  "Database '" +:+ databasePath +:+
  "' contains multiple QL dbschemes under '" +:+ dbPath +:+ "'.".

(** ** Sample disks and items *)

(** A database with its dataset under the root and a zipped source
    archive. *)
Definition sample_disk : Disk.t :=
  [ ("/db", [("db-test", true); ("src.zip", false)]);
    ("/db/db-test", [("test.dbscheme", false)]) ].

(** The same database in the old layout, with the sources in a directory. *)
Definition sample_old_layout : Disk.t :=
  [ ("/db", [("src", true); ("working", true)]);
    ("/db/src", []);
    ("/db/working", [("db-test", true)]);
    ("/db/working/db-test", [("test.dbscheme", false)]) ].

(** A bare directory of relations: one schema file and no dataset
    directory. *)
Definition sample_raw_disk : Disk.t :=
  [ ("/raw", [("only.dbscheme", false); ("tuples", true)]);
    ("/raw/tuples", []) ].

(** Datasets with two and with three schema files. *)
Definition sample_two_schemes : Disk.t :=
  [ ("/db", [("db-test", true)]);
    ("/db/db-test", [("a.dbscheme", false); ("b.dbscheme", false)]) ].

Definition sample_three_schemes : Disk.t :=
  [ ("/db", [("db-test", true)]);
    ("/db/db-test",
     [("a.dbscheme", false); ("b.dbscheme", false); ("c.dbscheme", false)]) ].

(** A directory that is no database. *)
Definition sample_empty_disk : Disk.t := [ ("/empty", []) ].

(** A name for the archive scheme, for the samples. *)
Definition sample_scheme : string := "codeql-zip-archive".

Definition sample_options : FullDatabaseOptions :=
  {| displayName := None; ignoreSourceArchive := false |}.

(** The item of [/db], refreshed on a disk. *)
Definition sample_item (d : Disk.t) : DatabaseItemImpl :=
  refresh_item
    (refresh (Disk.host d)
       (new_DatabaseItemImpl (Uri.file "/db") None sample_options)).

(** A registry in which [/db] was opened and then made current. *)
Definition sample_opened : DatabaseManager :=
  snd (openDatabase (Disk.host sample_disk) (Uri.file "/db") None
         (new_DatabaseManager ∅)).

Definition sample_current : DatabaseManager :=
  snd (setCurrentDatabaseItem (Disk.host sample_disk) (Some 0) false
         sample_opened).

(** A test project, whose sources lie next to the dataset. *)
Definition sample_testproj : Disk.t :=
  [ ("/t.testproj", [("db-test", true); ("src", true)]);
    ("/t.testproj/db-test", [("t.dbscheme", false)]);
    ("/t.testproj/src", []) ].

(** A stored state: a database that is gone, then [/db], which is also
    the stored current database. *)
Definition sample_stored : gmap string StateValue :=
  <[CURRENT_DB := StringValue "file:///db"]>
    (<[DB_LIST :=
         DatabaseListValue
           [ {| uri := "file:///gone"; options := None |};
             {| uri := "file:///db";
                options := Some {| opt_displayName := Some "mine";
                                   opt_ignoreSourceArchive := None |} |} ]]>
       ∅).

(** A stored list whose second location [Uri.parse] refuses: no
    authority, and a path that begins with two slashes. *)
Definition sample_stored_malformed : gmap string StateValue :=
  <[DB_LIST :=
      DatabaseListValue
        [ {| uri := "file:///db"; options := None |};
          {| uri := "file:////db"; options := None |};
          {| uri := "file:///db"; options := None |} ]]>
    ∅.

(** ** Conditions on inputs *)

(** A path that starts with one slash, not two, has none of [?], [#] and
    [%] in it, and no colon in third place, where a drive letter would
    have it: a path that is printed and parsed as it stands. *)
Definition plainAbsolutePath (p : string) : bool :=
  Str.startsWith p "/" && negb (Str.startsWith p "//")
  && Str.forallb (fun c => negb (Ascii.eqb c "?" || Ascii.eqb c "#"
                                 || Ascii.eqb c "%")) p
  && match p with
     | String _ (String _ (String c _)) => negb (Ascii.eqb c ":")
     | _ => true
     end.

(** The contents of an item are absent, or were resolved from the
    location of the item. *)
Definition contentsOfOwnLocation (item : DatabaseItemImpl) : Prop :=
  _contents item = None
  \/ exists fs c log,
       resolveDatabaseContents fs (databaseUri item) = (Returns c, log)
       /\ _contents item = Some c.

(** [/db] of [sample_disk] with the source archive taken away. *)
Definition sample_without_sources : Disk.t :=
  [ ("/db", [("db-test", true)]);
    ("/db/db-test", [("test.dbscheme", false)]) ].

(** ** The registry as its callers reach it *)

(** What [updatePersistedDatabaseList] writes for a list of references. *)
Definition persistedList (h : gmap nat DatabaseItemImpl) (items : list nat)
  : list PersistedDatabaseItem :=
  omap (fun r => getPersistedState <$> h !! r) items.

(** References point to objects, and objects are only made by
    [allocate]; no item is listed twice; no object has contents and an
    error at once. *)
Definition registryInvariant (m : DatabaseManager) : Prop :=
  (forall r, is_Some (heap m !! r) -> r < nextRef m)
  /\ (forall r, r ∈ _databaseItems m -> is_Some (heap m !! r))
  /\ NoDup (_databaseItems m)
  /\ (forall r, _currentDatabaseItem m = Some r -> is_Some (heap m !! r))
  /\ (forall r item,
        heap m !! r = Some item ->
        _contents item = None \/ _error item = None).

(** The states of a registry: the constructor, then the methods, in any
    order, on whatever the disk holds at the time.  A caller can only
    pass an item it was given, that is, a reference to an object. *)
Inductive registry_reachable : DatabaseManager -> Prop :=
| reached_new (stored : gmap string StateValue) :
    registry_reachable (new_DatabaseManager stored)
| reached_loadPersistedState (fs : FileSystem) (m : DatabaseManager) :
    registry_reachable m ->
    registry_reachable (loadPersistedState fs m)
| reached_openDatabase (fs : FileSystem) (uri_ : Uri.t)
    (options_ : option DatabaseOptions) (m : DatabaseManager) :
    registry_reachable m ->
    registry_reachable (snd (openDatabase fs uri_ options_ m))
| reached_refresh (fs : FileSystem) (item : nat) (m : DatabaseManager) :
    registry_reachable m ->
    is_Some (heap m !! item) ->
    registry_reachable (snd (refreshItem fs item m))
| reached_setCurrentDatabaseItem (fs : FileSystem) (item : option nat)
    (skipRefresh : bool) (m : DatabaseManager) :
    registry_reachable m ->
    (forall r, item = Some r -> is_Some (heap m !! r)) ->
    registry_reachable (snd (setCurrentDatabaseItem fs item skipRefresh m))
| reached_removeDatabaseItem (item : nat) (m : DatabaseManager) :
    registry_reachable m ->
    registry_reachable (removeDatabaseItem item m).

(** The persisted list is in step with the item list. *)
Definition persistedInStep (m : DatabaseManager) : Prop :=
  workspaceState m !! DB_LIST =
    Some (DatabaseListValue (persistedList (heap m) (_databaseItems m))).

(** What the loop has done when it is through the stored entries [good],
    all with a location that [Uri.parse] accepts. *)
Definition loadedFrom (current : option StateValue)
  (good : list PersistedDatabaseItem) (m m1 : DatabaseManager) : Prop :=
  _databaseItems m1 = _databaseItems m ++ seq (nextRef m) (length good)
  /\ nextRef m1 = nextRef m + length good
  /\ (forall i d,
        good !! i = Some d ->
        exists obj,
          heap m1 !! (nextRef m + i) = Some obj
          /\ databaseUri obj = Uri.parse (uri d)
          /\ displayName (item_options obj) = options d ≫= opt_displayName
          /\ ignoreSourceArchive (item_options obj) =
               default false (options d ≫= opt_ignoreSourceArchive))
  /\ (forall r, r < nextRef m -> heap m1 !! r = heap m !! r)
  /\ (_currentDatabaseItem m1 = _currentDatabaseItem m
      \/ exists i d obj,
           _currentDatabaseItem m1 = Some (nextRef m + i)
           /\ good !! i = Some d
           /\ current = Some (StringValue (uri d))
           /\ heap m1 !! (nextRef m + i) = Some obj
           /\ _error obj = None /\ is_Some (_contents obj)).

(** ** Properties of the layout prober *)

Lemma bind_returns {A B} (a : A) (log : list Message) (k : A -> Eff B) :
  bind (Returns a, log) k = (fst (k a), log ++ snd (k a)).
Proof. unfold bind. destruct (k a); reflexivity. Qed.

Lemma findDataset_found (fs : FileSystem) (root d : string)
  (rest : list string) :
  (glob fs "db-*/" root = d :: rest
   \/ (glob fs "db-*/" root = []
       /\ glob fs "working/db-*/" root = d :: rest)) ->
  findDataset fs root =
    (Returns (Uri.file (Path.join root d)),
     ambiguityWarning (Path.join root d) (d :: rest)).
Proof.
  unfold findDataset.
  intros [-> | [-> ->]]; simpl; destruct rest; reflexivity.
Qed.

Lemma findDataset_none (fs : FileSystem) (root : string) :
  glob fs "db-*/" root = [] ->
  glob fs "working/db-*/" root = [] ->
  findDataset fs root =
    (Throws (InvalidDatabaseError
               ("'" +:+ root +:+ "' does not contain a dataset directory.")),
     []).
Proof. unfold findDataset. intros -> ->. reflexivity. Qed.

(** C7.  The dataset search: a [db-*] directory directly under the root
    decides whatever [root/working] holds; [root/working] is consulted
    when the root has none; with no match in either place the search
    throws; with several matches the first one listed is taken and one
    warning is shown, and the search still returns. *)
Theorem findDataset_search_order (fs : FileSystem) (root : string) :
  (forall d rest,
      glob fs "db-*/" root = d :: rest ->
      findDataset fs root =
        (Returns (Uri.file (Path.join root d)),
         ambiguityWarning (Path.join root d) (d :: rest)))
  /\ (forall d rest,
        glob fs "db-*/" root = [] ->
        glob fs "working/db-*/" root = d :: rest ->
        findDataset fs root =
          (Returns (Uri.file (Path.join root d)),
           ambiguityWarning (Path.join root d) (d :: rest)))
  /\ (glob fs "db-*/" root = [] ->
      glob fs "working/db-*/" root = [] ->
      findDataset fs root =
        (Throws (InvalidDatabaseError
                   ("'" +:+ root +:+
                    "' does not contain a dataset directory.")), []))
  /\ (forall chosen d1 d2 rest,
        ambiguityWarning chosen (d1 :: d2 :: rest) =
          [WarningMessage
             ("Found multiple dataset directories in database, using '"
              +:+ chosen +:+ "'.")]
        /\ ambiguityWarning chosen [d1] = []).
Proof.
  repeat split.
  - intros d rest H. apply findDataset_found. now left.
  - intros d rest H1 H2. apply findDataset_found. now right.
  - intros H1 H2. now apply findDataset_none.
Qed.

Lemma findSourceArchive_loop_find (fs : FileSystem) (root : string) :
  findSourceArchive_loop fs root ["src"; "output/src_archive"] =
    spec_sourceArchiveLocation <$>
      List.find (fun c => pathExists fs (fst c))
                (spec_sourceArchiveCandidates root).
Proof.
  unfold spec_sourceArchiveCandidates, spec_sourceArchiveLocation. simpl.
  repeat (match goal with |- context [pathExists fs ?p] =>
                            destruct (pathExists fs p) end; simpl; try easy).
Qed.

Lemma isScheme_not_empty (s : string) :
  Uri.isScheme s = true -> Str.isEmpty s = false.
Proof. unfold Uri.isScheme. now destruct s. Qed.

Lemma with_scheme_scheme (s : string) (u : Uri.t) :
  Str.isEmpty s = false -> Uri.scheme (Uri.with_scheme s u) = s.
Proof.
  intros H. unfold Uri.with_scheme, Uri.make, Uri.schemeFix. simpl.
  now rewrite H.
Qed.

Lemma file_scheme (p : string) : Uri.scheme (Uri.file p) = "file".
Proof.
  unfold Uri.file.
  repeat match goal with
         | |- context [match ?x with _ => _ end] => destruct x
         end; reflexivity.
Qed.

(** C8.  The source archive search returns the first of
    [root/src], [root/src.zip], [root/output/src_archive],
    [root/output/src_archive.zip] that exists; a [.zip] result carries
    the archive scheme and a directory result the [file] scheme; when none
    of the four exists the search returns absent.  It never throws. *)
Theorem findSourceArchive_first_existing (fs : FileSystem) (root : string)
  (silent : bool) :
  let found := List.find (fun c => pathExists fs (fst c))
                         (spec_sourceArchiveCandidates root) in
  fst (findSourceArchive fs root silent)
    = Returns (spec_sourceArchiveLocation <$> found)
  /\ (forall p, Uri.scheme (spec_sourceArchiveLocation (p, true))
                = zipArchiveScheme)
  /\ (forall p, Uri.scheme (spec_sourceArchiveLocation (p, false)) = "file")
  /\ (found = None <->
      Forall (fun c => pathExists fs (fst c) = false)
             (spec_sourceArchiveCandidates root))
  /\ snd (findSourceArchive fs root silent) =
       match found with
       | Some _ => []
       | None =>
           if silent then []
           else [InformationMessage
                   ("Could not find source archive for database '" +:+
                    root +:+ "'. Assuming paths are absolute.")]
       end.
Proof.
  intros found. unfold findSourceArchive.
  rewrite findSourceArchive_loop_find. fold found.
  repeat split.
  - destruct found; simpl; [reflexivity|]. now destruct silent.
  - intros p. apply with_scheme_scheme.
    now apply isScheme_not_empty.
  - intros p. apply file_scheme.
  - intros H. apply Forall_forall. intros c Hc.
    apply (find_none _ _ H). now apply list_elem_of_In.
  - intros H. unfold found.
    destruct (List.find _ _) as [c|] eqn:E; [|reflexivity].
    apply find_some in E as [Hin Hex].
    rewrite Forall_forall in H. apply list_elem_of_In in Hin.
    specialize (H c Hin). simpl in *. congruence.
  - destruct found; simpl; [reflexivity|]. now destruct silent.
Qed.

(** ** Properties of the resolver *)

Lemma resolveDatabase_unfold (fs : FileSystem) (root : string) :
  resolveDatabase fs root =
    match findDataset fs root with
    | (Returns dataset, log) =>
        (Returns (Some {| kind := Database; name := Path.basename root;
                          datasetUri := dataset;
                          sourceArchiveUri :=
                            spec_sourceArchiveLocation <$>
                              List.find (fun c => pathExists fs (fst c))
                                        (spec_sourceArchiveCandidates root);
                          dbSchemeUri := None |}),
         log ++ snd (findSourceArchive fs root false))
    | (Throws e, log) => (Throws e, log)
    end.
Proof.
  unfold resolveDatabase.
  destruct (findDataset fs root) as [[dataset | e] log]; [|reflexivity].
  rewrite bind_returns. unfold findSourceArchive.
  rewrite findSourceArchive_loop_find.
  destruct (List.find _ _); simpl; rewrite ?app_nil_r; reflexivity.
Qed.

(** [resolveDatabase] is declared to return contents or [undefined], yet it
    returns contents whenever it returns. *)
Lemma resolveDatabase_never_undefined (fs : FileSystem) (root : string)
  (log : list Message) :
  resolveDatabase fs root <> (Returns None, log).
Proof.
  rewrite resolveDatabase_unfold.
  destruct (findDataset fs root) as [[dataset | e] log']; discriminate.
Qed.

Lemma resolveDatabaseContents_unfold (fs : FileSystem) (uri_ : Uri.t) :
  Uri.scheme uri_ = "file" ->
  pathExists fs (Uri.fsPath uri_) = true ->
  resolveDatabaseContents fs uri_ =
    (resolved <- resolveDatabase fs (Uri.fsPath uri_) ;;
     match match resolved with
           | Some c => Some c
           | None => resolveRawDataset fs (Uri.fsPath uri_)
           end with
     | None =>
         throw (InvalidDatabaseError
                  ("'" +:+ Uri.fsPath uri_ +:+ "' is not a valid database."))
     | Some c => lookForSingleDbScheme fs (Uri.fsPath uri_) c
     end).
Proof.
  intros Hs He. unfold resolveDatabaseContents. rewrite Hs, He. reflexivity.
Qed.

Lemma includes_here (s sub : string) :
  Str.isPrefix sub s = true -> Str.includes s sub = true.
Proof. intros H. destruct s; simpl in *; rewrite H; reflexivity. Qed.

Lemma prefix_append (a b : string) : Str.isPrefix a (a +:+ b) = true.
Proof.
  induction a as [|c a IH].
  - reflexivity.
  - change (String c a +:+ b) with (String c (a +:+ b)). simpl.
    now rewrite Ascii.eqb_refl.
Qed.

Lemma includes_after (a s sub : string) :
  Str.includes s sub = true -> Str.includes (a +:+ s) sub = true.
Proof.
  intros H. induction a as [|x a IH].
  - exact H.
  - change (String x a +:+ s) with (String x (a +:+ s)).
    simpl. rewrite IH. apply orb_true_r.
Qed.

Lemma includes_middle (a b c : string) :
  Str.includes (a +:+ b +:+ c) b = true.
Proof. apply includes_after, includes_here, prefix_append. Qed.

Lemma lookForSingleDbScheme_cases (fs : FileSystem) (databasePath : string)
  (c : DatabaseContents) :
  let dbPath := Uri.fsPath (datasetUri c) in
  lookForSingleDbScheme fs databasePath c =
    match getDbSchemeFiles fs dbPath with
    | [] =>
        (Throws (InvalidDatabaseError (noDbSchemeMessage databasePath dbPath)),
         [])
    | [f] =>
        (Returns (set_dbSchemeUri
                    (Some (Uri.file (Path.resolve (cwd fs) dbPath f))) c), [])
    | _ :: _ :: _ =>
        (Throws (InvalidDatabaseError
                   (multipleDbSchemesMessage databasePath dbPath)), [])
    end.
Proof.
  unfold lookForSingleDbScheme. simpl.
  destruct (getDbSchemeFiles fs (Uri.fsPath (datasetUri c))) as [|f [|g rest]];
    reflexivity.
Qed.

(** C4, as the code has it.  Once resolution has contents in hand, it
    throws an [InvalidDatabaseError] when the dataset directory holds no
    [.dbscheme] file and when it holds several; the message names the
    database path and the dataset path and tells "none" from "multiple",
    and is the same for any number of files above one; with exactly one
    file resolution returns the contents with the schema location set to
    that file. *)
Theorem resolveDatabaseContents_schema_step (fs : FileSystem) (uri_ : Uri.t)
  (resolved : option DatabaseContents) (c : DatabaseContents)
  (log : list Message) :
  Uri.scheme uri_ = "file" ->
  pathExists fs (Uri.fsPath uri_) = true ->
  resolveDatabase fs (Uri.fsPath uri_) = (Returns resolved, log) ->
  match resolved with
  | Some c' => Some c'
  | None => resolveRawDataset fs (Uri.fsPath uri_)
  end = Some c ->
  let databasePath := Uri.fsPath uri_ in
  let dbPath := Uri.fsPath (datasetUri c) in
  let files := getDbSchemeFiles fs dbPath in
  (files = [] ->
   resolveDatabaseContents fs uri_ =
     (Throws (InvalidDatabaseError (noDbSchemeMessage databasePath dbPath)),
      log))
  /\ (1 < length files ->
      resolveDatabaseContents fs uri_ =
        (Throws (InvalidDatabaseError
                   (multipleDbSchemesMessage databasePath dbPath)), log))
  /\ (forall f, files = [f] ->
      resolveDatabaseContents fs uri_ =
        (Returns (set_dbSchemeUri
                    (Some (Uri.file (Path.resolve (cwd fs) dbPath f))) c),
         log))
  /\ Str.includes (noDbSchemeMessage databasePath dbPath) dbPath = true
  /\ Str.includes (multipleDbSchemesMessage databasePath dbPath) dbPath
     = true.
Proof.
  intros Hs He Hr Hc databasePath dbPath files.
  rewrite (resolveDatabaseContents_unfold fs uri_ Hs He), Hr, bind_returns.
  rewrite Hc, lookForSingleDbScheme_cases.
  fold databasePath dbPath files.
  repeat split.
  - intros ->. simpl. now rewrite app_nil_r.
  - intros Hlen. destruct files as [|f [|g rest]]; simpl in Hlen; try lia.
    simpl. now rewrite app_nil_r.
  - intros f ->. simpl. now rewrite app_nil_r.
  - unfold noDbSchemeMessage.
    do 2 apply includes_after. apply includes_middle.
  - unfold multipleDbSchemesMessage.
    do 2 apply includes_after. apply includes_middle.
Qed.

(** C1, on the code.  For a location that exists, has no [db-*]
    directory under the root or under [root/working] and holds at least
    one [.dbscheme] file, the raw-dataset step would return the record the
    claim describes, yet [resolveDatabaseContents] never gets there:
    [findDataset] throws and the error leaves through [resolveDatabase]. *)
Theorem resolveDatabaseContents_raw_dataset_not_reached (fs : FileSystem)
  (uri_ : Uri.t) :
  let root := Uri.fsPath uri_ in
  Uri.scheme uri_ = "file" ->
  pathExists fs root = true ->
  glob fs "db-*/" root = [] ->
  glob fs "working/db-*/" root = [] ->
  0 < length (glob fs "*.dbscheme" root) ->
  resolveRawDataset fs root =
    Some {| kind := RawDataset; name := Path.basename root;
            datasetUri := Uri.file root; sourceArchiveUri := None;
            dbSchemeUri := None |}
  /\ resolveDatabaseContents fs uri_ =
       (Throws (InvalidDatabaseError
                  ("'" +:+ root +:+
                   "' does not contain a dataset directory.")), []).
Proof.
  intros root Hs He H1 H2 Hn. split.
  - unfold resolveRawDataset, getDbSchemeFiles.
    destruct (glob fs "*.dbscheme" root); simpl in *; [lia | reflexivity].
  - rewrite (resolveDatabaseContents_unfold fs uri_ Hs He).
    rewrite resolveDatabase_unfold. fold root.
    now rewrite (findDataset_none fs root H1 H2).
Qed.

(** ** Properties of the database item *)

Lemma stripLeadingSlashes_spec (s : string) :
  exists n, s = slashes n +:+ Str.stripLeadingSlashes s
            /\ Str.startsWith (Str.stripLeadingSlashes s) "/" = false.
Proof.
  induction s as [|c r [n [Hr Hs]]].
  - exists 0. split; reflexivity.
  - simpl. destruct (Ascii.eqb_spec c "/") as [-> | Hc].
    + exists (S n). split; [|exact Hs].
      change (slashes (S n) +:+ Str.stripLeadingSlashes r)
        with (String "/" (slashes n +:+ Str.stripLeadingSlashes r)).
      now rewrite <- Hr.
    + exists 0. split; [reflexivity|].
      unfold Str.startsWith. simpl.
      destruct (Ascii.eqb_spec c "/"); [congruence | reflexivity].
Qed.

Lemma replaceFirst_spec (s : string) :
  (Str.contains ":" s = false /\ Str.replaceFirst ":" "_" s = s)
  \/ (exists pre post,
        s = pre +:+ String ":" post /\ Str.contains ":" pre = false
        /\ Str.replaceFirst ":" "_" s = pre +:+ String "_" post).
Proof.
  induction s as [|c r IH].
  - left. split; reflexivity.
  - simpl. destruct (Ascii.eqb_spec c ":") as [-> | Hc].
    + right. exists "", r. repeat split.
    + destruct IH as [[Hn Hr] | (pre & post & Hs & Hn & Hr)].
      * left. unfold Str.contains in *. simpl.
        destruct (Ascii.eqb_spec c ":"); [contradiction|]. simpl.
        split; [exact Hn | now rewrite Hr].
      * right. exists (String c pre), post.
        change (String c pre +:+ String ":" post)
          with (String c (pre +:+ String ":" post)).
        change (String c pre +:+ String "_" post)
          with (String c (pre +:+ String "_" post)).
        rewrite <- Hs, Hr. repeat split.
        unfold Str.contains in *. simpl.
        destruct (Ascii.eqb_spec c ":"); [contradiction | exact Hn].
Qed.

Lemma replaceFirst_keeps_start (s : string) :
  Str.startsWith s "/" = false ->
  Str.startsWith (Str.replaceFirst ":" "_" s) "/" = false.
Proof.
  destruct s as [|c r]; [reflexivity|].
  unfold Str.startsWith. simpl.
  destruct (Ascii.eqb_spec c ":") as [-> | Hc]; [reflexivity|].
  exact id.
Qed.

(** C5, what the code does.  With a source archive configured,
    [resolveSourceFile] strips every leading slash of the file name and
    replaces its first colon by an underscore; the result never starts
    with a slash.  For a source archive under the archive scheme it
    becomes the fragment of the archive URI; otherwise it is appended to
    the path of the archive directory, after one slash when that path does
    not end in one. *)
Theorem resolveSourceFile_sanitizes (item : DatabaseItemImpl) (sa : Uri.t)
  (file : string) :
  sourceArchive item = Some sa ->
  let stripped := Str.stripLeadingSlashes file in
  let rel := Str.replaceFirst ":" "_" stripped in
  (exists n : nat, file = slashes n +:+ stripped)
  /\ Str.startsWith stripped "/" = false
  /\ ((Str.contains ":" stripped = false /\ rel = stripped)
      \/ (exists pre post,
            stripped = pre +:+ String ":" post
            /\ Str.contains ":" pre = false
            /\ rel = pre +:+ String "_" post))
  /\ Str.startsWith rel "/" = false
  /\ (Uri.scheme sa = zipArchiveScheme ->
      resolveSourceFile item (Some file) = Uri.with_fragment rel sa
      /\ Uri.fragment (resolveSourceFile item (Some file)) = rel)
  /\ (Uri.scheme sa <> zipArchiveScheme ->
      resolveSourceFile item (Some file) =
        Uri.with_path
          ((if Str.endsWith (Uri.path sa) "/" then Uri.path sa
            else Uri.path sa +:+ "/") +:+ rel)
          sa).
Proof.
  intros Hsa stripped rel. subst stripped rel.
  destruct (stripLeadingSlashes_spec file) as (n & Hfile & Hstart).
  split; [now exists n|]. split; [exact Hstart|]. split.
  { destruct (replaceFirst_spec (Str.stripLeadingSlashes file))
      as [[Hn Hr] | (pre & post & Hs & Hn & Hr)].
    - left. now rewrite Hr.
    - right. exists pre, post. now rewrite Hr. }
  split; [now apply replaceFirst_keeps_start|].
  unfold resolveSourceFile. rewrite Hsa. split.
  - intros Hz. rewrite Hz, String.eqb_refl. split; reflexivity.
  - intros Hz. apply String.eqb_neq in Hz. rewrite Hz.
    now destruct (Str.endsWith (Uri.path sa) "/").
Qed.

Lemma span_until_colon (s rest : string) :
  Str.forallb (fun c => negb (Uri.schemeStop c)) s = true ->
  Str.span (fun c => negb (Uri.schemeStop c)) (s +:+ String ":" rest)
  = (s, String ":" rest).
Proof.
  induction s as [|c s IH]; intros H.
  - reflexivity.
  - change (String c s +:+ String ":" rest)
      with (String c (s +:+ String ":" rest)).
    simpl in *. apply andb_true_iff in H as [Hc Hs].
    now rewrite Hc, (IH Hs).
Qed.

(** [Uri.parse] of a scheme name followed by [:/]. *)
Lemma parse_scheme_root (s : string) :
  Uri.isScheme s = true ->
  Uri.parse (s +:+ ":/") = Uri.mk s "" "/" "" "".
Proof.
  unfold Uri.isScheme. intros H. apply andb_true_iff in H as [Hne Hs].
  unfold Uri.parse, Uri.components. rewrite (span_until_colon s "/" Hs).
  destruct s as [|c s]; [discriminate|]. simpl.
  unfold Uri.make, Uri.schemeFix, Uri.referenceResolution. simpl.
  now destruct (_ || _).
Qed.

(** [Uri.parse] accepts a scheme name followed by [:/] when the name is
    made of the characters of a scheme, as that of the archive scheme
    is. *)
Lemma parseFailure_scheme_root (s : string) :
  Uri.isScheme s = true ->
  Uri.schemePattern s = true ->
  Uri.parseFailure (s +:+ ":/") = None.
Proof.
  intros Hs Hpattern. unfold Uri.parseFailure.
  rewrite (parse_scheme_root s Hs).
  unfold Uri.isScheme in Hs. apply andb_true_iff in Hs as [Hne Hs].
  unfold Uri.components. rewrite (span_until_colon s "/" Hs).
  destruct s as [|c s]; [discriminate|].
  cbn [Str.isEmpty].
  change (Str.span (fun c => negb (Ascii.eqb c "?" || Ascii.eqb c "#")) "/")
    with ("/", "").
  cbv beta iota.
  change (Uri.decodeURIComponent "") with (Some "").
  change (Uri.decodeURIComponent "/") with (Some "/").
  cbv beta iota.
  unfold Uri.validateUri. cbn [Uri.scheme Uri.authority Uri.path].
  rewrite Hpattern. reflexivity.
Qed.

Lemma getExplorerUri_unfold (item : DatabaseItemImpl) :
  getExplorerUri item =
    match sourceArchive item with
    | None => None
    | Some sa =>
        if Str.endsWith (Uri.fsPath sa) ".zip"
        then Some (Uri.mk zipArchiveScheme "" "/" "" (Uri.fsPath sa))
        else None
    end.
Proof.
  unfold getExplorerUri.
  destruct (sourceArchive item) as [sa|]; [|reflexivity].
  destruct (Str.endsWith _ _); [|reflexivity]. simpl.
  rewrite (parse_scheme_root _ zipArchiveScheme_isScheme).
  unfold Uri.with_fragment, Uri.make, Uri.schemeFix, Uri.referenceResolution.
  simpl. rewrite (isScheme_not_empty _ zipArchiveScheme_isScheme).
  now destruct (_ || _).
Qed.

Lemma endsWith_zip_not_root (s : string) :
  Str.endsWith s ".zip" = true -> s <> "/".
Proof. intros H ->. discriminate. Qed.

(** C6, on the code.  When an item has an explorer root, that root is
    under the archive scheme and its fragment is the file-system path of
    the item's source archive, which ends in [.zip]: it is a candidate the
    claim accepts.  [belongsToExplorerUri] rejects it, because it compares
    the candidate's fragment with the file-system path of the explorer
    root, which is [/]; all it accepts are the candidates under the
    archive scheme whose fragment is [/]. *)
Theorem belongsToExplorerUri_misses_own_archive (item : DatabaseItemImpl)
  (root : Uri.t) :
  getExplorerUri item = Some root ->
  (exists sa, sourceArchive item = Some sa
              /\ Str.endsWith (Uri.fsPath sa) ".zip" = true
              /\ Uri.scheme root = zipArchiveScheme
              /\ Uri.fragment root = Uri.fsPath sa)
  /\ belongsToExplorerUri item root = false
  /\ (forall candidate,
        belongsToExplorerUri item candidate = true <->
        Uri.scheme candidate = zipArchiveScheme
        /\ Uri.fragment candidate = "/").
Proof.
  intros Hroot.
  assert (Hb : forall candidate,
             belongsToExplorerUri item candidate =
               String.eqb (Uri.scheme candidate) zipArchiveScheme
               && String.eqb (Uri.fragment candidate) "/").
  { intros candidate. unfold belongsToExplorerUri. rewrite Hroot.
    rewrite getExplorerUri_unfold in Hroot.
    destruct (sourceArchive item) as [sa|]; [|discriminate].
    destruct (Str.endsWith _ _); [|discriminate].
    now injection Hroot as <-. }
  rewrite getExplorerUri_unfold in Hroot.
  destruct (sourceArchive item) as [sa|] eqn:Hsa; [|discriminate].
  destruct (Str.endsWith (Uri.fsPath sa) ".zip") eqn:Hzip; [|discriminate].
  injection Hroot as <-. repeat split.
  - exists sa. repeat split. exact Hzip.
  - rewrite Hb. simpl. apply andb_false_iff. right.
    apply String.eqb_neq. now apply endsWith_zip_not_root.
  - rewrite Hb in H. apply andb_true_iff in H as [H _].
    now apply String.eqb_eq.
  - rewrite Hb in H. apply andb_true_iff in H as [_ H].
    now apply String.eqb_eq.
  - intros [H1 H2]. rewrite Hb, H1, H2, String.eqb_refl. reflexivity.
Qed.

Lemma refresh_returns (fs : FileSystem) (item : DatabaseItemImpl)
  (c : DatabaseContents) (log : list Message) :
  resolveDatabaseContents fs (databaseUri item) = (Returns c, log) ->
  refresh fs item =
    let item' := {| databaseUri := databaseUri item; _error := None;
                    _contents := Some c;
                    item_options := item_options item |} in
    {| refresh_outcome := (Returns tt, log); refresh_item := item';
       refresh_onChanged := [item'] |}.
Proof. unfold refresh. now intros ->. Qed.

Lemma refresh_throws (fs : FileSystem) (item : DatabaseItemImpl)
  (e : JsError) (log : list Message) :
  resolveDatabaseContents fs (databaseUri item) = (Throws e, log) ->
  refresh fs item =
    let item' := {| databaseUri := databaseUri item; _error := Some e;
                    _contents := None;
                    item_options := item_options item |} in
    {| refresh_outcome := (Throws e, log); refresh_item := item';
       refresh_onChanged := [item'] |}.
Proof. unfold refresh. now intros ->. Qed.

Lemma refresh_databaseUri (fs : FileSystem) (item : DatabaseItemImpl) :
  databaseUri (refresh_item (refresh fs item)) = databaseUri item.
Proof.
  unfold refresh.
  now destruct (resolveDatabaseContents fs (databaseUri item)) as [[c|e] log].
Qed.

Lemma refresh_onChanged_once (fs : FileSystem) (item : DatabaseItemImpl) :
  refresh_onChanged (refresh fs item) = [refresh_item (refresh fs item)].
Proof.
  unfold refresh.
  now destruct (resolveDatabaseContents fs (databaseUri item)) as [[c|e] log].
Qed.

(** On an unchanged disk a second refresh finds what the first found. *)
Lemma refresh_again (fs : FileSystem) (item : DatabaseItemImpl) :
  let item' := refresh_item (refresh fs item) in
  _contents (refresh_item (refresh fs item')) = _contents item'
  /\ _error (refresh_item (refresh fs item')) = _error item'.
Proof.
  destruct (resolveDatabaseContents fs (databaseUri item))
    as [[c|e] log] eqn:E.
  - rewrite (refresh_returns _ _ _ _ E). simpl.
    now rewrite (refresh_returns fs (Build_DatabaseItemImpl _ _ _ _) _ _ E).
  - rewrite (refresh_throws _ _ _ _ E). simpl.
    now rewrite (refresh_throws fs (Build_DatabaseItemImpl _ _ _ _) _ _ E).
Qed.

(** A refresh through the registry stores the refreshed object and fires
    one [onDidChangeDatabaseItem] for it, which finds the state as the
    call leaves it. *)
Lemma refreshItem_fires (fs : FileSystem) (ref : nat)
  (item : DatabaseItemImpl) (m : DatabaseManager) :
  heap m !! ref = Some item ->
  let m' := snd (refreshItem fs ref m) in
  fst (refreshItem fs ref m) = fst (refresh_outcome (refresh fs item))
  /\ heap m' !! ref = Some (refresh_item (refresh fs item))
  /\ fired m' = fired m ++ [(DidChangeDatabaseItem (Some ref), see m')].
Proof.
  intros H. unfold refreshItem. rewrite H, refresh_onChanged_once. simpl.
  repeat split. apply lookup_insert_eq.
Qed.

(** C9.  [refresh] on success stores the new contents and clears the
    error; on failure it clears the contents, stores the error and throws
    that same error; either way it calls [onChanged] exactly once, with
    the item as updated, and leaves the location and the options alone.
    Two refreshes in a row make two calls, and through the registry each
    call fires one change event naming the item. *)
Theorem refresh_updates_then_notifies (fs : FileSystem)
  (item : DatabaseItemImpl) :
  let r := refresh fs item in
  let item' := refresh_item r in
  (forall c log,
      resolveDatabaseContents fs (databaseUri item) = (Returns c, log) ->
      _contents item' = Some c /\ _error item' = None
      /\ refresh_outcome r = (Returns tt, log))
  /\ (forall e log,
        resolveDatabaseContents fs (databaseUri item) = (Throws e, log) ->
        _contents item' = None /\ _error item' = Some e
        /\ refresh_outcome r = (Throws e, log))
  /\ refresh_onChanged r = [item']
  /\ databaseUri item' = databaseUri item
  /\ item_options item' = item_options item
  /\ (let r2 := refresh fs item' in
      refresh_onChanged r ++ refresh_onChanged r2
        = [item'; refresh_item r2]
      /\ _contents (refresh_item r2) = _contents item'
      /\ _error (refresh_item r2) = _error item')
  /\ (forall m ref,
        heap m !! ref = Some item ->
        let m1 := snd (refreshItem fs ref m) in
        let m2 := snd (refreshItem fs ref m1) in
        heap m1 !! ref = Some item'
        /\ fired m1 = fired m ++ [(DidChangeDatabaseItem (Some ref), see m1)]
        /\ fired m2 = fired m ++ [(DidChangeDatabaseItem (Some ref), see m1);
                                  (DidChangeDatabaseItem (Some ref), see m2)]).
Proof.
  intros r item'. subst r item'.
  split; [|split; [|split; [|split; [|split; [|split]]]]].
  - intros c log H. now rewrite (refresh_returns _ _ _ _ H).
  - intros e log H. now rewrite (refresh_throws _ _ _ _ H).
  - apply refresh_onChanged_once.
  - apply refresh_databaseUri.
  - unfold refresh.
    now destruct (resolveDatabaseContents fs (databaseUri item))
      as [[c|e] log].
  - simpl. rewrite !refresh_onChanged_once. split; [reflexivity|].
    apply refresh_again.
  - intros m ref H m1 m2.
    destruct (refreshItem_fires fs ref item m H) as (_ & H1 & H2).
    fold m1 in H1, H2.
    destruct (refreshItem_fires fs ref _ m1 H1) as (_ & _ & H3).
    fold m2 in H3. split; [exact H1|]. split; [exact H2|].
    rewrite H3, H2, <- app_assoc. reflexivity.
Qed.

(** C10.  In every state an item reaches from its constructor through
    refreshes, the cached contents and the cached error are not both
    present. *)
Theorem contents_and_error_exclusive (item : DatabaseItemImpl) :
  reachable item ->
  _contents item = None \/ _error item = None.
Proof.
  induction 1 as [u c o | fs item _ _].
  - right. reflexivity.
  - unfold refresh.
    destruct (resolveDatabaseContents fs (databaseUri item)) as [[c|e] log];
      simpl; [now right | now left].
Qed.

(** ** Properties of the registry *)

(** C2, as the code has it.  When the resolution of the location fails,
    [openDatabase] throws the resolution error and registers nothing: the
    heap, the item list, the current item, the persisted state and the
    events fired are what they were, and a find by that location returns
    what it returned before. *)
Theorem openDatabase_failure_registers_nothing (fs : FileSystem)
  (uri_ : Uri.t) (options_ : option DatabaseOptions) (m : DatabaseManager)
  (e : JsError) (log : list Message) :
  resolveDatabaseContents fs uri_ = (Throws e, log) ->
  let m' := snd (openDatabase fs uri_ options_ m) in
  fst (openDatabase fs uri_ options_ m) = Throws e
  /\ heap m' = heap m
  /\ _databaseItems m' = _databaseItems m
  /\ _currentDatabaseItem m' = _currentDatabaseItem m
  /\ workspaceState m' = workspaceState m
  /\ fired m' = fired m
  /\ findDatabaseItem uri_ m' = findDatabaseItem uri_ m.
Proof.
  intros H. unfold openDatabase. rewrite H. repeat split.
Qed.

Lemma spliceFirst_elem (item r : nat) (l : list nat) :
  NoDup l -> r ∈ spliceFirst item l -> r ∈ l /\ r <> item.
Proof.
  induction l as [|a l IH]; simpl; intros Hnd H.
  - now apply elem_of_nil in H.
  - apply NoDup_cons in Hnd as [Ha Hnd].
    destruct (Nat.eqb_spec a item) as [-> | Hne].
    + split; [now apply elem_of_cons; right|]. now intros ->.
    + apply elem_of_cons in H as [-> | H].
      * split; [apply elem_of_cons; now left | exact Hne].
      * destruct (IH Hnd H) as [Hin Hr].
        split; [apply elem_of_cons; now right | exact Hr].
Qed.

(** C3, on the code.  Removing the current item clears the in-memory
    current item and rewrites the persisted list from the items that are
    left, so that a location no other item has is gone from it; but the
    persisted current-location key keeps the value it had:
    [removeDatabaseItem] does not call
    [updatePersistedCurrentDatabaseItem], and the one event it fires is
    [onDidChangeDatabaseItem]. *)
Theorem removeDatabaseItem_leaves_persisted_current (item : nat)
  (m : DatabaseManager) :
  _currentDatabaseItem m = Some item ->
  let m' := removeDatabaseItem item m in
  _currentDatabaseItem m' = None
  /\ workspaceState m' !! CURRENT_DB = workspaceState m !! CURRENT_DB
  /\ workspaceState m' !! DB_LIST =
       Some (DatabaseListValue
               (omap (fun r => getPersistedState <$> heap m !! r)
                     (spliceFirst item (_databaseItems m))))
  /\ fired m' = fired m ++ [(DidChangeDatabaseItem None, see m')]
  /\ (NoDup (_databaseItems m) ->
      forall location,
        (forall r other,
            r ∈ _databaseItems m -> r <> item -> heap m !! r = Some other ->
            Uri.toString (databaseUri other) <> location) ->
        forall l,
          workspaceState m' !! DB_LIST = Some (DatabaseListValue l) ->
          location ∉ uri <$> l).
Proof.
  intros H. unfold removeDatabaseItem. rewrite H.
  rewrite bool_decide_eq_true_2 by reflexivity.
  split; [reflexivity|]. split; [|split; [|split]]; simpl.
  - now rewrite lookup_insert_ne.
  - now rewrite lookup_insert_eq.
  - reflexivity.
  - intros Hnd location Hother l.
    rewrite lookup_insert_eq. intros [= <-] Hin.
    apply list_elem_of_fmap in Hin as (p & -> & Hp).
    apply list_elem_of_omap in Hp as (r & Hr & Hp).
    destruct (spliceFirst_elem _ _ _ Hnd Hr) as [Hin Hne].
    destruct (heap m !! r) as [other|] eqn:E; [|discriminate].
    injection Hp as <-. now apply (Hother r other).
Qed.

(** ** More on the resolver *)

Lemma includes_quoted (pre s post : string) :
  Str.includes (pre +:+ s +:+ post) s = true.
Proof. apply includes_middle. Qed.

Ltac names_it :=
  cbn [errorMessage]; unfold noDbSchemeMessage, multipleDbSchemesMessage;
  apply includes_quoted.

(** X1.  Contents that [resolveDatabaseContents] returns are those of a
    database, never of a raw dataset: the location is a [file] URI that
    exists, the name is the base name of its path, the dataset is the
    first [db-*] directory of the search that found one, the source
    archive is the first candidate that exists, and the schema location
    is set, to the one [.dbscheme] file of the dataset directory. *)
Theorem resolveDatabaseContents_returns_database (fs : FileSystem)
  (uri_ : Uri.t) (c : DatabaseContents) (log : list Message) :
  resolveDatabaseContents fs uri_ = (Returns c, log) ->
  let root := Uri.fsPath uri_ in
  Uri.scheme uri_ = "file"
  /\ pathExists fs root = true
  /\ kind c = Database
  /\ name c = Path.basename root
  /\ (exists d rest,
        (glob fs "db-*/" root = d :: rest
         \/ (glob fs "db-*/" root = []
             /\ glob fs "working/db-*/" root = d :: rest))
        /\ datasetUri c = Uri.file (Path.join root d))
  /\ sourceArchiveUri c =
       spec_sourceArchiveLocation <$>
         List.find (fun p => pathExists fs (fst p))
                   (spec_sourceArchiveCandidates root)
  /\ (exists f,
        getDbSchemeFiles fs (Uri.fsPath (datasetUri c)) = [f]
        /\ dbSchemeUri c =
             Some (Uri.file (Path.resolve (cwd fs)
                               (Uri.fsPath (datasetUri c)) f))).
Proof.
  intros H root.
  destruct (String.eqb_spec (Uri.scheme uri_) "file") as [Hs | Hs].
  2: { unfold resolveDatabaseContents in H.
       apply String.eqb_neq in Hs. rewrite Hs in H. discriminate. }
  destruct (pathExists fs root) eqn:He.
  2: { unfold resolveDatabaseContents in H. fold root in H.
       rewrite Hs, He in H. discriminate. }
  rewrite (resolveDatabaseContents_unfold fs uri_ Hs He) in H.
  rewrite resolveDatabase_unfold in H. fold root in H.
  assert (Hfound :
            (exists d rest,
                (glob fs "db-*/" root = d :: rest
                 \/ (glob fs "db-*/" root = []
                     /\ glob fs "working/db-*/" root = d :: rest)))
            \/ (glob fs "db-*/" root = []
                /\ glob fs "working/db-*/" root = [])).
  { destruct (glob fs "db-*/" root) as [|d rest]; [|left; eauto].
    destruct (glob fs "working/db-*/" root) as [|d rest];
      [right | left]; eauto. }
  destruct Hfound as [(d & rest & Hd) | [H1 H2]].
  2: { rewrite (findDataset_none fs root H1 H2) in H. discriminate. }
  rewrite (findDataset_found fs root d rest Hd), bind_returns in H.
  rewrite lookForSingleDbScheme_cases in H. simpl in H.
  destruct (getDbSchemeFiles fs (Uri.fsPath (Uri.file (Path.join root d))))
    as [|f [|g more]] eqn:Hf; simpl in H; try discriminate.
  injection H as <- _. simpl.
  split; [exact Hs|].
  do 3 (split; [reflexivity|]).
  split; [|split; [reflexivity|]].
  - exists d, rest. split; [exact Hd | reflexivity].
  - exists f. split; [exact Hf | reflexivity].
Qed.

(** X2.  A root that exists, with a [db-*] directory under it (or, when
    it has none, under [root/working]) whose first match holds exactly one
    [.dbscheme] file, resolves: the contents are those of a database with
    that directory as dataset.  Further matches only add the warning. *)
Theorem resolveDatabaseContents_resolves (fs : FileSystem) (uri_ : Uri.t)
  (d f : string) (rest : list string) :
  let root := Uri.fsPath uri_ in
  let dataset := Uri.file (Path.join root d) in
  Uri.scheme uri_ = "file" ->
  pathExists fs root = true ->
  (glob fs "db-*/" root = d :: rest
   \/ (glob fs "db-*/" root = []
       /\ glob fs "working/db-*/" root = d :: rest)) ->
  getDbSchemeFiles fs (Uri.fsPath dataset) = [f] ->
  resolveDatabaseContents fs uri_ =
    (Returns {| kind := Database; name := Path.basename root;
                datasetUri := dataset;
                sourceArchiveUri :=
                  spec_sourceArchiveLocation <$>
                    List.find (fun p => pathExists fs (fst p))
                              (spec_sourceArchiveCandidates root);
                dbSchemeUri :=
                  Some (Uri.file (Path.resolve (cwd fs)
                                    (Uri.fsPath dataset) f)) |},
     ambiguityWarning (Path.join root d) (d :: rest)
     ++ snd (findSourceArchive fs root false)).
Proof.
  intros root dataset Hs He Hd Hf.
  rewrite (resolveDatabaseContents_unfold fs uri_ Hs He).
  rewrite resolveDatabase_unfold. fold root.
  rewrite (findDataset_found fs root d rest Hd), bind_returns.
  rewrite lookForSingleDbScheme_cases. simpl. fold dataset.
  rewrite Hf. simpl. now rewrite app_nil_r.
Qed.

(** X3.  What [resolveDatabaseContents] throws: for a URI that is no
    [file] URI a plain [Error] that names the scheme, before the disk is
    looked at; for a [file] URI always an [InvalidDatabaseError], whose
    message names the path of the database. *)
Theorem resolveDatabaseContents_throws (fs : FileSystem) (uri_ : Uri.t)
  (e : JsError) (log : list Message) :
  resolveDatabaseContents fs uri_ = (Throws e, log) ->
  (Uri.scheme uri_ <> "file" ->
   e = Error ("Database URI scheme '" +:+ Uri.scheme uri_ +:+
              "' not supported; only 'file' URIs are supported.")
   /\ log = []
   /\ Str.includes (errorMessage e) (Uri.scheme uri_) = true)
  /\ (Uri.scheme uri_ = "file" ->
      (exists m, e = InvalidDatabaseError m)
      /\ Str.includes (errorMessage e) (Uri.fsPath uri_) = true).
Proof.
  intros H. split; intros Hs.
  - unfold resolveDatabaseContents in H.
    apply String.eqb_neq in Hs. rewrite Hs in H. simpl in H.
    injection H as <- <-. repeat split. names_it.
  - set (root := Uri.fsPath uri_) in *.
    destruct (pathExists fs root) eqn:He.
    2: { unfold resolveDatabaseContents in H. fold root in H.
         rewrite Hs, He in H. injection H as <- _.
         split; [eauto|]. names_it. }
    rewrite (resolveDatabaseContents_unfold fs uri_ Hs He) in H.
    rewrite resolveDatabase_unfold in H. fold root in H.
    assert (Hfound :
              (exists d rest,
                  (glob fs "db-*/" root = d :: rest
                   \/ (glob fs "db-*/" root = []
                       /\ glob fs "working/db-*/" root = d :: rest)))
              \/ (glob fs "db-*/" root = []
                  /\ glob fs "working/db-*/" root = [])).
    { destruct (glob fs "db-*/" root) as [|d rest]; [|left; eauto].
      destruct (glob fs "working/db-*/" root) as [|d rest];
        [right | left]; eauto. }
    destruct Hfound as [(d & rest & Hd) | [H1 H2]].
    + rewrite (findDataset_found fs root d rest Hd), bind_returns in H.
      rewrite lookForSingleDbScheme_cases in H. simpl in H.
      destruct (getDbSchemeFiles fs _) as [|f [|g more]];
        simpl in H; try discriminate;
        injection H as <- _; (split; [eauto|]); names_it.
    + rewrite (findDataset_none fs root H1 H2) in H.
      injection H as <- _. split; [eauto|]. names_it.
Qed.

(** X4.  A missing source archive never makes resolution fail, and a
    source archive never rescues it.  On two disks that agree on whether
    the database exists, on the two searches for a dataset directory in
    it and on the searches for schema files, resolution throws the same
    error or returns contents that agree in everything but the source
    archive, whatever else the disks hold. *)
Theorem resolveDatabaseContents_whatever_the_sources (fs1 fs2 : FileSystem)
  (uri_ : Uri.t) :
  glob fs1 "db-*/" (Uri.fsPath uri_) = glob fs2 "db-*/" (Uri.fsPath uri_) ->
  glob fs1 "working/db-*/" (Uri.fsPath uri_)
  = glob fs2 "working/db-*/" (Uri.fsPath uri_) ->
  (forall dir, glob fs1 "*.dbscheme" dir = glob fs2 "*.dbscheme" dir) ->
  cwd fs1 = cwd fs2 ->
  pathExists fs1 (Uri.fsPath uri_) = pathExists fs2 (Uri.fsPath uri_) ->
  match fst (resolveDatabaseContents fs1 uri_),
        fst (resolveDatabaseContents fs2 uri_) with
  | Throws e1, Throws e2 => e1 = e2
  | Returns c1, Returns c2 =>
      kind c1 = kind c2 /\ name c1 = name c2
      /\ datasetUri c1 = datasetUri c2 /\ dbSchemeUri c1 = dbSchemeUri c2
  | _, _ => False
  end.
Proof.
  intros Hdb Hworking Hglob Hcwd Hexists.
  destruct (String.eqb_spec (Uri.scheme uri_) "file") as [Hs | Hs].
  2: { unfold resolveDatabaseContents.
       apply String.eqb_neq in Hs. rewrite Hs. reflexivity. }
  set (root := Uri.fsPath uri_) in *.
  destruct (pathExists fs2 root) eqn:He.
  2: { unfold resolveDatabaseContents. fold root.
       rewrite Hs, Hexists, He. reflexivity. }
  rewrite (resolveDatabaseContents_unfold fs1 uri_ Hs Hexists).
  rewrite (resolveDatabaseContents_unfold fs2 uri_ Hs He).
  rewrite !resolveDatabase_unfold. fold root.
  assert (Hsame : findDataset fs1 root = findDataset fs2 root).
  { unfold findDataset. fold root in Hdb, Hworking.
    now rewrite Hdb, Hworking. }
  rewrite Hsame.
  destruct (findDataset fs2 root) as [[dataset|e] log]; [|reflexivity].
  rewrite !bind_returns, !lookForSingleDbScheme_cases. simpl.
  unfold getDbSchemeFiles. rewrite Hglob, Hcwd.
  destruct (glob fs2 "*.dbscheme" (Uri.fsPath dataset)) as [|f [|g more]];
    simpl; repeat split.
Qed.

(** ** More on the database item *)

Lemma resolveDatabaseContents_name (fs : FileSystem) (uri_ : Uri.t)
  (c : DatabaseContents) (log : list Message) :
  resolveDatabaseContents fs uri_ = (Returns c, log) ->
  name c = Path.basename (Uri.fsPath uri_).
Proof.
  intros H. unfold resolveDatabaseContents in H.
  destruct (negb (Uri.scheme uri_ =? "file")%string); [discriminate|].
  destruct (negb (pathExists fs (Uri.fsPath uri_))); [discriminate|].
  rewrite resolveDatabase_unfold in H.
  destruct (findDataset fs (Uri.fsPath uri_)) as [[dataset|e] log'];
    [|discriminate].
  rewrite bind_returns, lookForSingleDbScheme_cases in H. simpl in H.
  destruct (getDbSchemeFiles fs (Uri.fsPath dataset)) as [|f [|g more]];
    simpl in H; try discriminate.
  now injection H as <- _.
Qed.

(** X5.  A refresh never changes the name an item shows.  For an item
    whose contents, if it has any, were resolved from its own location,
    the name after a refresh, whether it succeeds or fails, is the name
    before it: the display name when one is set and not empty, and
    otherwise the base name of the path of the database, which resolved
    contents carry too.  The refreshed item is again such an item. *)
Theorem item_name_after_refresh (fs : FileSystem) (item : DatabaseItemImpl) :
  contentsOfOwnLocation item ->
  let item' := refresh_item (refresh fs item) in
  item_name item' = item_name item
  /\ item_name item' =
       match displayName (item_options item) with
       | Some (String c r) => String c r
       | _ => Path.basename (Uri.fsPath (databaseUri item))
       end
  /\ contentsOfOwnLocation item'.
Proof.
  intros Hown item'.
  assert (Hbefore : item_name item =
                      match displayName (item_options item) with
                      | Some (String c r) => String c r
                      | _ => Path.basename (Uri.fsPath (databaseUri item))
                      end).
  { unfold item_name.
    destruct Hown as [-> | (fs0 & c0 & log0 & Hres & ->)].
    - reflexivity.
    - rewrite (resolveDatabaseContents_name _ _ _ _ Hres).
      now destruct (displayName (item_options item)) as [[|x r]|]. }
  assert (Hafter : item_name item' =
                     match displayName (item_options item) with
                     | Some (String c r) => String c r
                     | _ => Path.basename (Uri.fsPath (databaseUri item))
                     end
                   /\ contentsOfOwnLocation item').
  { subst item'. unfold refresh, item_name, contentsOfOwnLocation.
    destruct (resolveDatabaseContents fs (databaseUri item))
      as [[c|e] log] eqn:E; simpl.
    - rewrite (resolveDatabaseContents_name _ _ _ _ E).
      split; [now destruct (displayName (item_options item)) as [[|x r]|]|].
      right. now exists fs, c, log.
    - split; [reflexivity | now left]. }
  destruct Hafter as [Hafter Hown'].
  split; [now rewrite Hafter, Hbefore|]. now split.
Qed.

(** X6.  An item that ignores its source archive, or that has no
    contents because its database is invalid, takes file names as
    absolute paths, maps the absent file name to the database itself, and
    has no explorer root, so that no URI belongs to it. *)
Theorem resolveSourceFile_without_archive (item : DatabaseItemImpl) :
  ignoreSourceArchive (item_options item) = true \/ _contents item = None ->
  sourceArchive item = None
  /\ (forall f, resolveSourceFile item (Some f) = Uri.file f)
  /\ resolveSourceFile item None = databaseUri item
  /\ getExplorerUri item = None
  /\ (forall candidate, belongsToExplorerUri item candidate = false).
Proof.
  intros H.
  assert (Hsa : sourceArchive item = None).
  { unfold sourceArchive. destruct H as [-> | ->]; [reflexivity|].
    now destruct (ignoreSourceArchive _). }
  unfold belongsToExplorerUri, getExplorerUri, resolveSourceFile.
  rewrite Hsa. repeat split.
Qed.

Lemma stripLeadingSlashes_slashes (n : nat) (s : string) :
  Str.stripLeadingSlashes (slashes n +:+ s) = Str.stripLeadingSlashes s.
Proof.
  induction n as [|n IH].
  - reflexivity.
  - change (slashes (S n) +:+ s) with (String "/" (slashes n +:+ s)).
    simpl. exact IH.
Qed.

(** X7.  With a source archive configured, leading slashes of a file name
    do not matter: the name with any number of slashes before it resolves
    to the same URI as the name itself. *)
Theorem resolveSourceFile_leading_slashes (item : DatabaseItemImpl)
  (sa : Uri.t) (n : nat) (file : string) :
  sourceArchive item = Some sa ->
  resolveSourceFile item (Some (slashes n +:+ file))
  = resolveSourceFile item (Some file).
Proof.
  intros H. unfold resolveSourceFile. rewrite H.
  now rewrite stripLeadingSlashes_slashes.
Qed.

Lemma span_all (p : ascii -> bool) (s : string) :
  Str.forallb p s = true -> Str.span p s = (s, "").
Proof.
  induction s as [|c s IH]; simpl; intros H; [reflexivity|].
  apply andb_true_iff in H as [Hc Hs]. now rewrite Hc, (IH Hs).
Qed.

Lemma append_empty_r (s : string) : s +:+ "" = s.
Proof.
  induction s as [|c s IH]; [reflexivity|].
  change (String c s +:+ "") with (String c (s +:+ "")). now rewrite IH.
Qed.

Lemma forallb_impl (p q : ascii -> bool) (s : string) :
  (forall c, p c = true -> q c = true) ->
  Str.forallb p s = true -> Str.forallb q s = true.
Proof.
  intros Hpq. induction s as [|c s IH]; simpl; [reflexivity|].
  intros H. apply andb_true_iff in H as [Hc Hs].
  now rewrite (Hpq c Hc), (IH Hs).
Qed.

(** Without a percent sign there is nothing to decode. *)
Lemma decodeURIComponent_plain (s : string) :
  Str.forallb (fun c => negb (Ascii.eqb c "%")) s = true ->
  Uri.decodeURIComponent s = Some s.
Proof.
  unfold Uri.decodeURIComponent.
  assert (H : Str.forallb (fun c => negb (Ascii.eqb c "%")) s = true ->
              exists ts, Uri.tokens s = Some ts /\ Uri.octets ts = Some s).
  { induction s as [|c s IH]; simpl.
    - intros _. now exists [].
    - intros H. apply andb_true_iff in H as [Hc Hs].
      destruct (IH Hs) as (ts & Hts & Hoct).
      apply negb_true_iff in Hc. rewrite Hc, Hts.
      exists (Uri.Literal c :: ts). split; [reflexivity|].
      simpl. now rewrite Hoct. }
  intros Hs. destruct (H Hs) as (ts & -> & Hoct). exact Hoct.
Qed.

(** Without [#] and [?] there is nothing to encode. *)
Lemma encodeMinimal_plain (s : string) :
  Str.forallb (fun c => negb (Ascii.eqb c "?" || Ascii.eqb c "#")) s = true ->
  Uri.encodeMinimal s = s.
Proof.
  induction s as [|c s IH]; simpl; [reflexivity|].
  intros H. apply andb_true_iff in H as [Hc Hs].
  apply negb_true_iff, orb_false_iff in Hc as [Hq Hh].
  now rewrite Hh, Hq, (IH Hs).
Qed.

(** The URI of a plain absolute path is printed as [file://] and the
    path, and that text is parsed, without an error, as the same URI. *)
Lemma parse_toString_file (p : string) :
  plainAbsolutePath p = true ->
  Uri.toString (Uri.file p) = "file://" +:+ p
  /\ Uri.parse ("file://" +:+ p) = Uri.file p
  /\ Uri.parseFailure ("file://" +:+ p) = None.
Proof.
  unfold plainAbsolutePath. intros H.
  apply andb_true_iff in H as [H Hdrive].
  apply andb_true_iff in H as [H Hplain].
  apply andb_true_iff in H as [Habs Hunc].
  assert (Hnoenc : Str.forallb
                     (fun c => negb (Ascii.eqb c "?" || Ascii.eqb c "#")) p
                   = true).
  { revert Hplain. apply forallb_impl. intros c Hc.
    apply negb_true_iff, orb_false_iff in Hc as [Hc _].
    now rewrite Hc. }
  assert (Hnopct : Str.forallb (fun c => negb (Ascii.eqb c "%")) p = true).
  { revert Hplain. apply forallb_impl. intros c Hc.
    apply negb_true_iff, orb_false_iff in Hc as [_ Hc].
    now rewrite Hc. }
  destruct p as [|c p]; [discriminate|].
  unfold Str.startsWith in Habs. simpl in Habs.
  rewrite andb_true_r in Habs. apply Ascii.eqb_eq in Habs. subst c.
  assert (Hsecond : Str.startsWith p "/" = false).
  { unfold Str.startsWith in *. simpl in Hunc.
    apply negb_true_iff in Hunc. exact Hunc. }
  assert (Hfile : Uri.file (String "/" p)
                  = Uri.mk "file" "" (String "/" p) "" "").
  { unfold Uri.file. destruct p as [|c p]; [reflexivity|].
    unfold Str.startsWith in Hsecond. simpl in Hsecond.
    rewrite andb_true_r in Hsecond.
    destruct (Ascii.eqb_spec c "/") as [-> | Hc]; [discriminate|].
    destruct c as [[] [] [] [] [] [] [] []]; try reflexivity.
    now contradiction Hc. }
  assert (Hlower : Uri.lowerDriveLetter (String "/" p) = String "/" p).
  { unfold Uri.lowerDriveLetter.
    destruct p as [|b [|c r]]; [reflexivity| |].
    - now destruct (Ascii.eqb b ":").
    - apply negb_true_iff in Hdrive. rewrite Hdrive. simpl.
      now destruct (Ascii.eqb b ":"). }
  assert (Hcomponents : Uri.components ("file://" +:+ String "/" p)
                        = ("file", "", String "/" p, "", "")).
  { change ("file://" +:+ String "/" p)
      with (String "f" (String "i" (String "l" (String "e" (String ":"
             (String "/" (String "/" (String "/" p)))))))).
    unfold Uri.components.
    change (Str.span (fun c => negb (Uri.schemeStop c))
              (String "f" (String "i" (String "l" (String "e" (String ":"
                (String "/" (String "/" (String "/" p)))))))))
      with ("file", String ":" (String "/" (String "/" (String "/" p)))).
    cbv beta iota.
    change (Str.isEmpty "file") with false. cbv beta iota.
    change (Str.span (fun c => negb (Ascii.eqb c "/" || Ascii.eqb c "?"
                                    || Ascii.eqb c "#")) (String "/" p))
      with ("", String "/" p).
    cbv beta iota.
    rewrite (span_all _ _ Hnoenc). reflexivity. }
  assert (Hparse : Uri.parse ("file://" +:+ String "/" p)
                   = Uri.mk "file" "" (String "/" p) "" "").
  { unfold Uri.parse. rewrite Hcomponents.
    rewrite (decodeURIComponent_plain _ Hnopct). reflexivity. }
  split; [|split].
  - rewrite Hfile. unfold Uri.toString.
    cbn [Uri.scheme Uri.authority Uri.path Uri.query Uri.fragment].
    rewrite Hlower, (encodeMinimal_plain _ Hnoenc).
    change (Str.isEmpty "file") with false.
    change (Str.isEmpty "") with true.
    change (Str.isEmpty (String "/" p)) with false.
    cbv beta iota.
    change (negb true || String.eqb "file" "file") with true.
    cbv beta iota.
    change ("file" +:+ ":") with "file:".
    change ("file:" +:+ "//" +:+ "" +:+ String "/" p +:+ "" +:+ "")
      with ("file://" +:+ (String "/" p +:+ "")).
    now rewrite append_empty_r.
  - now rewrite Hparse, Hfile.
  - unfold Uri.parseFailure. rewrite Hcomponents.
    rewrite (decodeURIComponent_plain _ Hnopct).
    change (Uri.decodeURIComponent "") with (Some "").
    cbv beta iota. rewrite Hparse. unfold Uri.validateUri.
    cbn [Uri.scheme Uri.authority Uri.path].
    change (negb (Str.isEmpty "file") && negb (Uri.schemePattern "file"))
      with false.
    change (Str.isEmpty (String "/" p)) with false.
    change (negb (Str.isEmpty "")) with false.
    cbv beta iota.
    assert (Htwo : Str.startsWith (String "/" p) "//" = false).
    { now apply negb_true_iff in Hunc. }
    now rewrite Htwo.
Qed.

(** X8.  What is persisted of an item brings the item back.  For an item
    at a plain absolute path, the persisted text is [file://] and the
    path, and creating an item from the persisted state does not throw:
    it gives a new object with the same location and the same options, no
    contents and no error yet, which persists to the same state again. *)
Theorem persisted_state_round_trip (item : DatabaseItemImpl) (p : string)
  (m : DatabaseManager) :
  plainAbsolutePath p = true ->
  databaseUri item = Uri.file p ->
  let state := getPersistedState item in
  let created := createDatabaseItemFromPersistedState state m in
  uri state = "file://" +:+ p
  /\ fst created = Returns (nextRef m)
  /\ heap (snd created) !! nextRef m =
       Some (new_DatabaseItemImpl (databaseUri item) None (item_options item))
  /\ getPersistedState
       (new_DatabaseItemImpl (databaseUri item) None (item_options item))
     = state.
Proof.
  intros Hp Huri state created.
  destruct (parse_toString_file p Hp) as (Hstr & Hparse & Hok).
  assert (Hstate : uri state = "file://" +:+ p).
  { subst state. unfold getPersistedState. simpl. now rewrite Huri. }
  assert (Hcreated :
            created
            = (Returns (nextRef m),
               addDatabaseItem (nextRef m)
                 (snd (allocate
                         (new_DatabaseItemImpl (databaseUri item) None
                            (item_options item)) m)))).
  { subst created. unfold createDatabaseItemFromPersistedState.
    rewrite Hstate, Hok, Hparse, <- Huri.
    subst state. unfold getPersistedState, persistedOptions. simpl.
    now destruct (item_options item). }
  split; [exact Hstate|]. rewrite Hcreated.
  split; [reflexivity|]. split.
  - simpl. now rewrite lookup_insert_eq.
  - reflexivity.
Qed.

(** ** More on the registry *)

Lemma refresh_exclusive (fs : FileSystem) (item : DatabaseItemImpl) :
  _contents (refresh_item (refresh fs item)) = None
  \/ _error (refresh_item (refresh fs item)) = None.
Proof.
  unfold refresh.
  destruct (resolveDatabaseContents fs (databaseUri item)) as [[c|e] log];
    simpl; [now right | now left].
Qed.

(** Adding a fresh object to the list keeps the invariant. *)
Lemma invariant_allocate_add (item : DatabaseItemImpl) (m : DatabaseManager) :
  _error item = None ->
  registryInvariant m ->
  registryInvariant (addDatabaseItem (fst (allocate item m))
                                     (snd (allocate item m))).
Proof.
  intros Herr (Hlt & Hlist & Hnd & Hcur & Hex).
  assert (Hfresh : heap m !! nextRef m = None).
  { destruct (heap m !! nextRef m) eqn:E; [|reflexivity].
    assert (nextRef m < nextRef m) by (apply Hlt; eauto). lia. }
  unfold registryInvariant. simpl. repeat split.
  - intros r [x Hx].
    destruct (decide (nextRef m = r)) as [<- | Hne]; [lia|].
    rewrite lookup_insert_ne in Hx by exact Hne.
    assert (r < nextRef m) by (apply Hlt; eauto). lia.
  - intros r Hr. apply elem_of_app in Hr as [Hr | Hr].
    + destruct (decide (nextRef m = r)) as [<- | Hne].
      * rewrite lookup_insert_eq. eauto.
      * rewrite lookup_insert_ne by exact Hne. now apply Hlist.
    + apply list_elem_of_singleton in Hr as ->.
      rewrite lookup_insert_eq. eauto.
  - apply NoDup_app. split; [exact Hnd|]. split; [|apply NoDup_singleton].
    intros r Hr Hr'. apply list_elem_of_singleton in Hr' as ->.
    destruct (Hlist _ Hr) as [x Hx]. congruence.
  - intros r Hr.
    destruct (decide (nextRef m = r)) as [<- | Hne].
    + rewrite lookup_insert_eq. eauto.
    + rewrite lookup_insert_ne by exact Hne. now apply Hcur.
  - intros r obj Hobj.
    destruct (decide (nextRef m = r)) as [<- | Hne].
    + rewrite lookup_insert_eq in Hobj. injection Hobj as <-. now right.
    + rewrite lookup_insert_ne in Hobj by exact Hne. now apply (Hex r).
Qed.

Lemma invariant_refreshItem (fs : FileSystem) (item : nat)
  (m : DatabaseManager) :
  registryInvariant m -> registryInvariant (snd (refreshItem fs item m)).
Proof.
  intros Hinv. unfold refreshItem.
  destruct (heap m !! item) as [obj|] eqn:E; [|exact Hinv].
  rewrite refresh_onChanged_once.
  destruct Hinv as (Hlt & Hlist & Hnd & Hcur & Hex).
  unfold registryInvariant. simpl. repeat split.
  - intros r [x Hx]. apply Hlt.
    destruct (decide (item = r)) as [<- | Hne]; [eauto|].
    rewrite lookup_insert_ne in Hx by exact Hne. eauto.
  - intros r Hr.
    destruct (decide (item = r)) as [<- | Hne].
    + rewrite lookup_insert_eq. eauto.
    + rewrite lookup_insert_ne by exact Hne. now apply Hlist.
  - exact Hnd.
  - intros r Hr.
    destruct (decide (item = r)) as [<- | Hne].
    + rewrite lookup_insert_eq. eauto.
    + rewrite lookup_insert_ne by exact Hne. now apply Hcur.
  - intros r x Hx.
    destruct (decide (item = r)) as [<- | Hne].
    + rewrite lookup_insert_eq in Hx. injection Hx as <-.
      apply refresh_exclusive.
    + rewrite lookup_insert_ne in Hx by exact Hne. now apply (Hex r).
Qed.

Lemma refreshItem_heap_dom (fs : FileSystem) (item r : nat)
  (m : DatabaseManager) :
  is_Some (heap m !! r) -> is_Some (heap (snd (refreshItem fs item m)) !! r).
Proof.
  intros H. unfold refreshItem.
  destruct (heap m !! item) as [obj|] eqn:E; [|exact H].
  rewrite refresh_onChanged_once. simpl.
  destruct (decide (item = r)) as [<- | Hne].
  - rewrite lookup_insert_eq. eauto.
  - now rewrite lookup_insert_ne.
Qed.

Lemma invariant_setCurrentDatabaseItem (fs : FileSystem) (item : option nat)
  (skipRefresh : bool) (m : DatabaseManager) :
  (forall r, item = Some r -> is_Some (heap m !! r)) ->
  registryInvariant m ->
  registryInvariant (snd (setCurrentDatabaseItem fs item skipRefresh m)).
Proof.
  intros Hitem Hinv. unfold setCurrentDatabaseItem.
  set (step := match item with
               | Some r => if negb skipRefresh then refreshItem fs r m
                           else (Returns tt, m)
               | None => (Returns tt, m)
               end).
  assert (Hstep : registryInvariant (snd step)
                  /\ forall r, item = Some r -> is_Some (heap (snd step) !! r)).
  { subst step. destruct item as [r|]; [|now split].
    destruct (negb skipRefresh); [|now split].
    split; [now apply invariant_refreshItem|].
    intros r' [= <-]. apply refreshItem_heap_dom. now apply Hitem. }
  destruct step as [[[]|e] m1]; simpl in *; [|exact (proj1 Hstep)].
  destruct Hstep as [(Hlt & Hlist & Hnd & Hcur & Hex) Hon].
  destruct (negb (bool_decide (_currentDatabaseItem m1 = item)));
    [|repeat split; assumption].
  unfold registryInvariant. simpl. repeat split; assumption.
Qed.

Lemma spliceFirst_NoDup (item : nat) (l : list nat) :
  NoDup l -> NoDup (spliceFirst item l).
Proof.
  induction l as [|a l IH]; simpl; intros H; [exact H|].
  apply NoDup_cons in H as [Ha Hl].
  destruct (Nat.eqb a item); [exact Hl|].
  apply NoDup_cons. split; [|now apply IH].
  intros Hin. apply Ha. now apply (spliceFirst_elem item a l Hl).
Qed.

Lemma invariant_removeDatabaseItem (item : nat) (m : DatabaseManager) :
  registryInvariant m -> registryInvariant (removeDatabaseItem item m).
Proof.
  intros (Hlt & Hlist & Hnd & Hcur & Hex).
  unfold removeDatabaseItem, registryInvariant.
  destruct (bool_decide (_currentDatabaseItem m = Some item)); simpl;
    repeat split; try assumption; try discriminate;
    try (now apply spliceFirst_NoDup);
    intros r Hr; apply Hlist; now apply (spliceFirst_elem item r _ Hnd).
Qed.

Lemma invariant_openDatabase (fs : FileSystem) (uri_ : Uri.t)
  (options_ : option DatabaseOptions) (m : DatabaseManager) :
  registryInvariant m ->
  registryInvariant (snd (openDatabase fs uri_ options_ m)).
Proof.
  intros Hinv. unfold openDatabase.
  destruct (resolveDatabaseContents fs uri_) as [[c|e] log];
    [|exact Hinv].
  apply (invariant_allocate_add
           (new_DatabaseItemImpl uri_ (Some c) _) (show log m)
           eq_refl Hinv).
Qed.

(** Creating an item from persisted state throws on a text that
    [Uri.parse] refuses, and then leaves the registry alone; otherwise it
    allocates one object and lists it. *)
Lemma createDatabaseItemFromPersistedState_cases
  (state : PersistedDatabaseItem) (m : DatabaseManager) :
  (exists message,
      Uri.parseFailure (uri state) = Some message
      /\ createDatabaseItemFromPersistedState state m
         = (Throws (Error message), m))
  \/ (exists obj,
         Uri.parseFailure (uri state) = None
         /\ obj = new_DatabaseItemImpl (Uri.parse (uri state)) None
                    {| ignoreSourceArchive :=
                         default false
                           (options state ≫= opt_ignoreSourceArchive);
                       displayName := options state ≫= opt_displayName |}
         /\ createDatabaseItemFromPersistedState state m
            = (Returns (nextRef m),
               addDatabaseItem (nextRef m) (snd (allocate obj m)))).
Proof.
  unfold createDatabaseItemFromPersistedState.
  destruct (Uri.parseFailure (uri state)) as [message|].
  - left. now exists message.
  - right. eexists. split; [reflexivity|]. split; [reflexivity|].
    now destruct (options state) as [[dn [ig|]]|].
Qed.

Lemma invariant_loadPersistedDatabase (fs : FileSystem)
  (current : option StateValue) (database : option PersistedDatabaseItem)
  (m : DatabaseManager) :
  registryInvariant m ->
  registryInvariant (snd (loadPersistedDatabase fs current database m)).
Proof.
  intros Hinv. unfold loadPersistedDatabase.
  destruct (createDatabaseItemFromPersistedState_cases
              (default {| uri := "undefined"; options := None |} database) m)
    as [(message & _ & ->) | (obj & _ & Hobj & ->)]; [exact Hinv|].
  assert (Herr : _error obj = None) by now subst obj.
  pose proof (invariant_allocate_add obj m Herr Hinv) as Hadd.
  set (m1 := addDatabaseItem (nextRef m) (snd (allocate obj m))) in *.
  change (fst (allocate obj m)) with (nextRef m) in Hadd.
  pose proof (invariant_refreshItem fs (nextRef m) m1 Hadd) as Hrefresh.
  assert (Hon : is_Some (heap (snd (refreshItem fs (nextRef m) m1))
                         !! nextRef m)).
  { apply refreshItem_heap_dom. subst m1. simpl.
    rewrite lookup_insert_eq. eauto. }
  destruct (refreshItem fs (nextRef m) m1) as [[[]|e] m2];
    simpl in *; [|exact Hrefresh].
  destruct (sameUri current (uri <$> database)); [|exact Hrefresh].
  apply invariant_setCurrentDatabaseItem; [|exact Hrefresh].
  now intros r [= <-].
Qed.

(** What every round of the loop keeps, and a message shown keeps, the
    whole loop keeps. *)
Lemma loadPersistedDatabases_keeps (P : DatabaseManager -> Prop)
  (fs : FileSystem) (current : option StateValue) :
  (forall database m,
      P m -> P (snd (loadPersistedDatabase fs current database m))) ->
  (forall log m, P m -> P (show log m)) ->
  forall databases m,
    P m -> P (loadPersistedDatabases fs current databases m).
Proof.
  intros Hround Hshow databases.
  induction databases as [|d l IH]; intros m Hm; [exact Hm|].
  simpl. pose proof (Hround d m Hm) as Hd.
  destruct (loadPersistedDatabase fs current d m) as [[[]|e] m1];
    simpl in Hd.
  - now apply IH.
  - now apply Hshow.
Qed.

Lemma invariant_loadPersistedState (fs : FileSystem) (m : DatabaseManager) :
  registryInvariant m -> registryInvariant (loadPersistedState fs m).
Proof.
  unfold loadPersistedState.
  apply (loadPersistedDatabases_keeps registryInvariant).
  - intros database m0. apply invariant_loadPersistedDatabase.
  - intros log m0 H. exact H.
Qed.

Lemma invariant_new (stored : gmap string StateValue) :
  registryInvariant (new_DatabaseManager stored).
Proof.
  unfold registryInvariant. simpl. repeat split.
  - intros r [x Hx]. now rewrite lookup_empty in Hx.
  - intros r Hr. now apply elem_of_nil in Hr.
  - apply NoDup_nil_2.
  - discriminate.
  - intros r item Hx. now rewrite lookup_empty in Hx.
Qed.

(** X9.  In every state a registry reaches, each reference it holds (in
    the item list, as current item) points to an object, no item is listed
    twice, objects are only ever added, never overwritten by a newer
    one, and no object has both contents and an error. *)
Theorem registry_invariant (m : DatabaseManager) :
  registry_reachable m -> registryInvariant m.
Proof.
  induction 1 as [stored | fs m _ IH | fs u o m _ IH | fs r m _ IH Hr
                  | fs item skip m _ IH Hitem | r m _ IH].
  - apply invariant_new.
  - now apply invariant_loadPersistedState.
  - now apply invariant_openDatabase.
  - now apply invariant_refreshItem.
  - now apply invariant_setCurrentDatabaseItem.
  - now apply invariant_removeDatabaseItem.
Qed.

Lemma find_agree {A} (P Q : A -> bool) (l : list A) :
  (forall x, x ∈ l -> P x = Q x) -> List.find P l = List.find Q l.
Proof.
  induction l as [|a l IH]; intros H; [reflexivity|]. simpl.
  rewrite (H a) by (apply elem_of_cons; now left).
  destruct (Q a); [reflexivity|].
  apply IH. intros x Hx. apply H. apply elem_of_cons. now right.
Qed.

Lemma find_snoc {A} (P : A -> bool) (l : list A) (x : A) :
  List.find P (l ++ [x]) =
    match List.find P l with
    | Some y => Some y
    | None => if P x then Some x else None
    end.
Proof.
  induction l as [|a l IH]; simpl; [reflexivity|].
  now destruct (P a).
Qed.


Lemma listed_below_nextRef (m : DatabaseManager) (r : nat) :
  registryInvariant m -> r ∈ _databaseItems m -> r <> nextRef m.
Proof.
  intros (Hlt & Hlist & _) Hr.
  assert (r < nextRef m) by (apply Hlt; now apply Hlist). lia.
Qed.

(** X10.  A successful [openDatabase] returns a new item, puts it last in
    the item list, with the resolved contents and no error, and leaves the
    other objects and the current item alone.  It does not look for an
    item of the same location first: a find by the location afterwards
    returns the item that was registered for it before, if there was one,
    and the new item otherwise. *)
Theorem openDatabase_registers (fs : FileSystem) (uri_ : Uri.t)
  (options_ : option DatabaseOptions) (m : DatabaseManager)
  (c : DatabaseContents) (log : list Message) :
  registryInvariant m ->
  resolveDatabaseContents fs uri_ = (Returns c, log) ->
  let item := nextRef m in
  let m' := snd (openDatabase fs uri_ options_ m) in
  fst (openDatabase fs uri_ options_ m) = Returns item
  /\ heap m !! item = None
  /\ _databaseItems m' = _databaseItems m ++ [item]
  /\ (exists obj,
        heap m' !! item = Some obj /\ databaseUri obj = uri_
        /\ _contents obj = Some c /\ _error obj = None)
  /\ (forall r, r <> item -> heap m' !! r = heap m !! r)
  /\ _currentDatabaseItem m' = _currentDatabaseItem m
  /\ findDatabaseItem uri_ m' = Some (default item (findDatabaseItem uri_ m)).
Proof.
  intros Hinv Hres item m'. subst m'.
  unfold openDatabase. rewrite Hres. simpl. fold item.
  split; [reflexivity|]. split.
  { destruct Hinv as (Hlt & _).
    destruct (heap m !! item) eqn:E; [|reflexivity].
    assert (item < nextRef m) by (apply Hlt; eauto). unfold item in *. lia. }
  split; [reflexivity|]. split.
  { eexists. rewrite lookup_insert_eq. repeat split. }
  split; [intros r Hr; now rewrite lookup_insert_ne|].
  split; [reflexivity|].
  unfold findDatabaseItem. simpl. rewrite find_snoc.
  rewrite (find_agree _
             (fun r => match heap m !! r with
                       | Some obj =>
                           String.eqb (Uri.toString (databaseUri obj))
                                      (Uri.toString uri_)
                       | None => false
                       end)).
  - destruct (List.find _ (_databaseItems m)); [reflexivity|].
    rewrite lookup_insert_eq. simpl. now rewrite String.eqb_refl.
  - intros r Hr. rewrite lookup_insert_ne; [reflexivity|].
    intros <-. now apply (listed_below_nextRef m item Hinv).
Qed.

(** X11.  The options of an opened item: the display name is the one
    given; the source archive is ignored as the caller says, and, when
    the caller does not say, exactly when the path of the database has
    the extension [.testproj].  An item that ignores its source archive
    has none, whatever the disk holds. *)
Theorem openDatabase_options (fs : FileSystem) (uri_ : Uri.t)
  (options_ : option DatabaseOptions) (m : DatabaseManager)
  (c : DatabaseContents) (log : list Message) :
  resolveDatabaseContents fs uri_ = (Returns c, log) ->
  exists obj,
    heap (snd (openDatabase fs uri_ options_ m)) !! nextRef m = Some obj
    /\ displayName (item_options obj) = options_ ≫= opt_displayName
    /\ ignoreSourceArchive (item_options obj) =
         default (String.eqb (Path.extname (Uri.fsPath uri_)) ".testproj")
                 (options_ ≫= opt_ignoreSourceArchive)
    /\ (ignoreSourceArchive (item_options obj) = true ->
        sourceArchive obj = None)
    /\ (ignoreSourceArchive (item_options obj) = false ->
        sourceArchive obj = sourceArchiveUri c).
Proof.
  intros Hres. unfold openDatabase. rewrite Hres. simpl.
  eexists. rewrite lookup_insert_eq. split; [reflexivity|].
  unfold sourceArchive. simpl.
  destruct options_ as [[dn [b|]]|]; simpl;
    repeat split; try (intros ->; reflexivity);
    try (intros H; rewrite H; reflexivity).
Qed.



Lemma find_spliceFirst_other (P : nat -> bool) (item : nat) (l : list nat) :
  P item = false -> List.find P (spliceFirst item l) = List.find P l.
Proof.
  intros H. induction l as [|a l IH]; simpl; [reflexivity|].
  destruct (Nat.eqb_spec a item) as [-> | Hne].
  - now rewrite H.
  - simpl. now rewrite IH.
Qed.

(** X13.  Removing an item does not disturb the lookup of other
    locations: a find by a location the removed item does not have
    returns what it returned before.  And once the only listed item of a
    location is removed, a find by that location returns nothing. *)
Theorem findDatabaseItem_after_remove (item : nat) (m : DatabaseManager)
  (uri_ : Uri.t) :
  ((forall obj, heap m !! item = Some obj ->
                Uri.toString (databaseUri obj) <> Uri.toString uri_) ->
   findDatabaseItem uri_ (removeDatabaseItem item m)
   = findDatabaseItem uri_ m)
  /\ (NoDup (_databaseItems m) ->
      (forall r obj,
          r ∈ _databaseItems m -> r <> item -> heap m !! r = Some obj ->
          Uri.toString (databaseUri obj) <> Uri.toString uri_) ->
      findDatabaseItem uri_ (removeDatabaseItem item m) = None).
Proof.
  assert (Hrem : findDatabaseItem uri_ (removeDatabaseItem item m) =
                 List.find
                   (fun r => match heap m !! r with
                             | Some obj =>
                                 String.eqb (Uri.toString (databaseUri obj))
                                            (Uri.toString uri_)
                             | None => false
                             end)
                   (spliceFirst item (_databaseItems m))).
  { unfold removeDatabaseItem, findDatabaseItem.
    now destruct (bool_decide (_currentDatabaseItem m = Some item)). }
  rewrite Hrem. split.
  - intros Hother. apply find_spliceFirst_other.
    destruct (heap m !! item) as [obj|] eqn:E; [|reflexivity].
    apply String.eqb_neq. now apply Hother.
  - intros Hnd Hothers.
    destruct (List.find _ _) as [r|] eqn:E; [|reflexivity].
    apply find_some in E as [Hin Hr].
    apply list_elem_of_In in Hin.
    destruct (spliceFirst_elem item r _ Hnd Hin) as [Hin' Hne].
    destruct (heap m !! r) as [obj|] eqn:Eo; [|discriminate].
    apply String.eqb_eq in Hr. now destruct (Hothers r obj Hin' Hne Eo).
Qed.

(** X14.  The item list is persisted before the change is announced.
    After [addDatabaseItem] and after [removeDatabaseItem] the one event
    fired is [onDidChangeDatabaseItem] without an item, and what its
    listeners find persisted under [databaseList] is the state of the
    very items they find listed. *)
Theorem list_change_persisted_then_fired (item : nat) (m : DatabaseManager) :
  (let m' := addDatabaseItem item m in
   fired m' = fired m ++ [(DidChangeDatabaseItem None, see m')]
   /\ seen_workspaceState (see m') !! DB_LIST =
        Some (DatabaseListValue
                (persistedList (seen_heap (see m'))
                               (seen_databaseItems (see m'))))
   /\ _databaseItems m' = _databaseItems m ++ [item])
  /\ (let m' := removeDatabaseItem item m in
      fired m' = fired m ++ [(DidChangeDatabaseItem None, see m')]
      /\ seen_workspaceState (see m') !! DB_LIST =
           Some (DatabaseListValue
                   (persistedList (seen_heap (see m'))
                                  (seen_databaseItems (see m'))))
      /\ length (_databaseItems m') =
           length (_databaseItems m)
           - (if bool_decide (item ∈ _databaseItems m) then 1 else 0)).
Proof.
  split.
  - simpl. split; [reflexivity|]. split; [|reflexivity].
    now rewrite lookup_insert_eq.
  - unfold removeDatabaseItem.
    assert (Hlen : forall l,
               length (spliceFirst item l) =
               length l - (if bool_decide (item ∈ l) then 1 else 0)).
    { induction l as [|a l IH]; [reflexivity|]. simpl.
      destruct (Nat.eqb_spec a item) as [-> | Hne].
      - rewrite bool_decide_eq_true_2 by (apply elem_of_cons; now left).
        lia.
      - simpl. rewrite IH.
        destruct (bool_decide (item ∈ l)) eqn:E.
        + apply bool_decide_eq_true in E.
          rewrite bool_decide_eq_true_2 by (apply elem_of_cons; now right).
          destruct l; [now apply elem_of_nil in E | simpl; lia].
        + apply bool_decide_eq_false in E.
          rewrite bool_decide_eq_false_2; [lia|].
          intros H. apply elem_of_cons in H as [-> | H]; contradiction. }
    destruct (bool_decide (_currentDatabaseItem m = Some item)); simpl;
      (split; [reflexivity|]); (split; [now rewrite lookup_insert_eq|]);
      apply Hlen.
Qed.

Lemma refreshItem_unfold (fs : FileSystem) (item : nat)
  (obj : DatabaseItemImpl) (m : DatabaseManager) :
  heap m !! item = Some obj ->
  refreshItem fs item m =
    (fst (refresh_outcome (refresh fs obj)),
     fire (DidChangeDatabaseItem (Some item))
          (show (snd (refresh_outcome (refresh fs obj)))
                (set_heap (<[item := refresh_item (refresh fs obj)]> (heap m))
                          m))).
Proof.
  intros H. unfold refreshItem. rewrite H, refresh_onChanged_once.
  reflexivity.
Qed.

(** X15.  An invalid database cannot be made current.  When the refresh
    of the item throws, [setCurrentDatabaseItem] throws that error and
    leaves the current item and the persisted state as they were; the
    item has recorded the error and its change was announced, and no
    change of the current item was. *)
Theorem setCurrentDatabaseItem_rejects_invalid (fs : FileSystem)
  (item : nat) (obj : DatabaseItemImpl) (m : DatabaseManager)
  (e : JsError) (log : list Message) :
  heap m !! item = Some obj ->
  resolveDatabaseContents fs (databaseUri obj) = (Throws e, log) ->
  let m' := snd (setCurrentDatabaseItem fs (Some item) false m) in
  fst (setCurrentDatabaseItem fs (Some item) false m) = Throws e
  /\ _currentDatabaseItem m' = _currentDatabaseItem m
  /\ workspaceState m' = workspaceState m
  /\ _databaseItems m' = _databaseItems m
  /\ (exists obj', heap m' !! item = Some obj'
                   /\ _error obj' = Some e /\ _contents obj' = None)
  /\ fired m' = fired m ++ [(DidChangeDatabaseItem (Some item), see m')].
Proof.
  intros Hobj Hres. unfold setCurrentDatabaseItem. simpl.
  rewrite (refreshItem_unfold fs item obj m Hobj).
  rewrite (refresh_throws fs obj e log Hres). simpl.
  repeat split. eexists. rewrite lookup_insert_eq. repeat split.
Qed.

(** X16.  Changing the current item without a refresh.  Setting the item
    that is current already does nothing at all.  Otherwise the current
    item changes, its location is persisted under [currentDatabase] (the
    key is removed when there is no item), and one
    [onDidChangeCurrentDatabaseItem] is fired, whose listeners find the
    new persisted state.  The item list and the objects stay as they
    are. *)
Theorem setCurrentDatabaseItem_skipRefresh (fs : FileSystem)
  (item : option nat) (m : DatabaseManager) :
  let m' := snd (setCurrentDatabaseItem fs item true m) in
  fst (setCurrentDatabaseItem fs item true m) = Returns tt
  /\ (_currentDatabaseItem m = item -> m' = m)
  /\ (_currentDatabaseItem m <> item ->
      _currentDatabaseItem m' = item
      /\ workspaceState m' !! CURRENT_DB =
           item ≫= (fun r =>
                      (fun obj => StringValue (Uri.toString (databaseUri obj)))
                        <$> heap m !! r)
      /\ workspaceState m' !! DB_LIST = workspaceState m !! DB_LIST
      /\ fired m' = fired m ++ [(DidChangeCurrentDatabaseItem item, see m')]
      /\ heap m' = heap m
      /\ _databaseItems m' = _databaseItems m).
Proof.
  unfold setCurrentDatabaseItem.
  assert (Hstep : match item with
                  | Some r => if negb true then refreshItem fs r m
                              else (Returns tt, m)
                  | None => (Returns tt, m)
                  end = (Returns tt, m)) by now destruct item.
  rewrite Hstep. clear Hstep.
  destruct (decide (_currentDatabaseItem m = item)) as [Heq | Hne].
  - rewrite bool_decide_eq_true_2 by exact Heq. simpl.
    split; [reflexivity|]. split; [reflexivity|]. intros H. contradiction.
  - rewrite bool_decide_eq_false_2 by exact Hne. simpl.
    split; [reflexivity|]. split; [intros H; contradiction|]. intros _.
    split; [reflexivity|]. split.
    { unfold memento_update.
      destruct item as [r|]; simpl.
      - destruct (heap m !! r); simpl.
        + now rewrite lookup_insert_eq.
        + now rewrite lookup_delete_eq.
      - now rewrite lookup_delete_eq. }
    split.
    { unfold memento_update.
      destruct (match item with Some r => _ | None => None end).
      - now rewrite lookup_insert_ne.
      - now rewrite lookup_delete_ne. }
    repeat split.
Qed.

(** X17.  Making a valid item current: the item is refreshed first, which
    announces its change while the old current item is still in place;
    then the current item changes, its location is persisted, and the
    change of the current item is announced last. *)
Theorem setCurrentDatabaseItem_valid (fs : FileSystem) (item : nat)
  (obj : DatabaseItemImpl) (m : DatabaseManager) (c : DatabaseContents)
  (log : list Message) :
  heap m !! item = Some obj ->
  resolveDatabaseContents fs (databaseUri obj) = (Returns c, log) ->
  _currentDatabaseItem m <> Some item ->
  let m' := snd (setCurrentDatabaseItem fs (Some item) false m) in
  fst (setCurrentDatabaseItem fs (Some item) false m) = Returns tt
  /\ _currentDatabaseItem m' = Some item
  /\ workspaceState m' !! CURRENT_DB =
       Some (StringValue (Uri.toString (databaseUri obj)))
  /\ (exists obj', heap m' !! item = Some obj'
                   /\ _contents obj' = Some c /\ _error obj' = None)
  /\ (exists before,
        fired m' = fired m ++
                   [(DidChangeDatabaseItem (Some item), before);
                    (DidChangeCurrentDatabaseItem (Some item), see m')]
        /\ seen_currentDatabaseItem before = _currentDatabaseItem m
        /\ seen_workspaceState before = workspaceState m).
Proof.
  intros Hobj Hres Hcur. unfold setCurrentDatabaseItem. simpl.
  rewrite (refreshItem_unfold fs item obj m Hobj).
  rewrite (refresh_returns fs obj c log Hres). simpl.
  rewrite bool_decide_eq_false_2 by exact Hcur. simpl.
  split; [reflexivity|]. split; [reflexivity|].
  rewrite !lookup_insert_eq. simpl. rewrite lookup_insert_eq.
  split; [reflexivity|]. split.
  - eexists. repeat split.
  - eexists. rewrite <- app_assoc. repeat split.
Qed.

(** One round of the loop of [loadPersistedState], on a stored entry
    whose location [Uri.parse] accepts. *)
Lemma loadPersistedDatabase_step (fs : FileSystem)
  (current : option StateValue) (d : PersistedDatabaseItem)
  (m : DatabaseManager) :
  Uri.parseFailure (uri d) = None ->
  exists obj m',
    loadPersistedDatabase fs current (Some d) m = (Returns tt, m')
    /\ databaseUri obj = Uri.parse (uri d)
    /\ displayName (item_options obj) = options d ≫= opt_displayName
    /\ ignoreSourceArchive (item_options obj) =
         default false (options d ≫= opt_ignoreSourceArchive)
    /\ nextRef m' = S (nextRef m)
    /\ _databaseItems m' = _databaseItems m ++ [nextRef m]
    /\ heap m' = <[nextRef m := obj]> (heap m)
    /\ (_currentDatabaseItem m' = _currentDatabaseItem m
        \/ (_currentDatabaseItem m' = Some (nextRef m)
            /\ current = Some (StringValue (uri d))
            /\ _error obj = None /\ is_Some (_contents obj))).
Proof.
  intros Hparse. unfold loadPersistedDatabase.
  destruct (createDatabaseItemFromPersistedState_cases d m)
    as [(message & Hfail & _) | (fresh & _ & Hfresh & Hcreated)];
    [congruence|].
  change (default {| uri := "undefined"; options := None |} (Some d))
    with d.
  rewrite Hcreated.
  rewrite (refreshItem_unfold fs _ fresh).
  2: { simpl. apply lookup_insert_eq. }
  exists (refresh_item (refresh fs fresh)).
  assert (Hopts : item_options (refresh_item (refresh fs fresh))
                  = item_options fresh).
  { unfold refresh.
    now destruct (resolveDatabaseContents fs (databaseUri fresh))
      as [[c|e] log]. }
  assert (Huri : databaseUri fresh = Uri.parse (uri d)) by now subst fresh.
  assert (Hdn : displayName (item_options fresh)
                = options d ≫= opt_displayName) by now subst fresh.
  assert (Hig : ignoreSourceArchive (item_options fresh)
                = default false (options d ≫= opt_ignoreSourceArchive))
    by now subst fresh.
  rewrite Hopts. clear Hfresh Hcreated Hopts.
  destruct (resolveDatabaseContents fs (databaseUri fresh))
    as [[c|e] log] eqn:E.
  - rewrite (refresh_returns fs fresh c log E). simpl.
    destruct (sameUri current (Some (uri d))) eqn:Ec.
    + assert (Hcurrent : current = Some (StringValue (uri d))).
      { unfold sameUri in Ec. destruct current as [[s|l]|]; try discriminate.
        apply String.eqb_eq in Ec. now subst s. }
      unfold setCurrentDatabaseItem. simpl.
      destruct (negb (bool_decide (_currentDatabaseItem m
                                   = Some (nextRef m)))) eqn:En; simpl.
      * eexists. split; [reflexivity|]. simpl.
        split; [exact Huri|]. split; [exact Hdn|]. split; [exact Hig|].
        split; [reflexivity|]. split; [reflexivity|].
        split; [now rewrite insert_insert_eq|].
        right. repeat split; eauto.
      * apply negb_false_iff, bool_decide_eq_true in En.
        eexists. split; [reflexivity|]. simpl.
        split; [exact Huri|]. split; [exact Hdn|]. split; [exact Hig|].
        split; [reflexivity|]. split; [reflexivity|].
        split; [now rewrite insert_insert_eq|].
        right. repeat split; eauto.
    + eexists. split; [reflexivity|]. simpl.
      split; [exact Huri|]. split; [exact Hdn|]. split; [exact Hig|].
      split; [reflexivity|]. split; [reflexivity|].
      split; [now rewrite insert_insert_eq|]. now left.
  - rewrite (refresh_throws fs fresh e log E). simpl.
    eexists. split; [reflexivity|]. simpl.
    split; [exact Huri|]. split; [exact Hdn|]. split; [exact Hig|].
    split; [reflexivity|]. split; [reflexivity|].
    split; [now rewrite insert_insert_eq|]. now left.
Qed.

(** A round on a stored entry whose location [Uri.parse] refuses throws
    before anything is done. *)
Lemma loadPersistedDatabase_throws (fs : FileSystem)
  (current : option StateValue) (d : PersistedDatabaseItem)
  (m : DatabaseManager) (message : string) :
  Uri.parseFailure (uri d) = Some message ->
  loadPersistedDatabase fs current (Some d) m = (Throws (Error message), m).
Proof.
  intros Hparse. unfold loadPersistedDatabase.
  destruct (createDatabaseItemFromPersistedState_cases d m)
    as [(message' & Hfail & Hcreated) | (fresh & Hok & _)];
    [|congruence].
  change (default {| uri := "undefined"; options := None |} (Some d))
    with d.
  rewrite Hcreated. congruence.
Qed.

Lemma loadPersistedState_unfold (fs : FileSystem) (m : DatabaseManager)
  (databases : list PersistedDatabaseItem) :
  workspaceState m !! DB_LIST = Some (DatabaseListValue databases) ->
  loadPersistedState fs m =
    loadPersistedDatabases fs (workspaceState m !! CURRENT_DB)
      (Some <$> databases) m.
Proof.
  intros H. unfold loadPersistedState. now rewrite H.
Qed.

Lemma loadPersistedDatabases_good (fs : FileSystem)
  (current : option StateValue) (good : list PersistedDatabaseItem)
  (rest : list (option PersistedDatabaseItem)) (m : DatabaseManager) :
  (forall d, d ∈ good -> Uri.parseFailure (uri d) = None) ->
  exists m1,
    loadPersistedDatabases fs current ((Some <$> good) ++ rest) m
    = loadPersistedDatabases fs current rest m1
    /\ loadedFrom current good m m1.
Proof.
  revert m. induction good as [|d l IH]; intros m Hgood.
  - exists m. split; [reflexivity|]. unfold loadedFrom. simpl.
    rewrite app_nil_r, Nat.add_0_r.
    split; [reflexivity|]. split; [reflexivity|].
    split; [intros i d Hd; now rewrite lookup_nil in Hd|].
    split; [reflexivity|]. now left.
  - assert (Hd : Uri.parseFailure (uri d) = None).
    { apply Hgood. apply elem_of_cons. now left. }
    destruct (loadPersistedDatabase_step fs current d m Hd)
      as (obj & m' & Hround & Huri & Hdn & Hig & Hnext & Hitems & Hheap
          & Hcur).
    destruct (IH m') as (m1 & Hloop & IHitems & IHnext & IHobj & IHold
                         & IHcur).
    { intros d' Hd'. apply Hgood. apply elem_of_cons. now right. }
    exists m1. split.
    { change ((Some <$> d :: l) ++ rest)
        with (Some d :: ((Some <$> l) ++ rest)).
      simpl. rewrite Hround. exact Hloop. }
    rewrite Hnext, Hitems in *.
    assert (Hfirst : heap m1 !! nextRef m = Some obj).
    { rewrite IHold by lia. rewrite Hheap. apply lookup_insert_eq. }
    unfold loadedFrom.
    split; [rewrite IHitems, <- app_assoc; reflexivity|].
    split; [rewrite IHnext; simpl; lia|]. split; [|split].
    + intros [|i] d' Hd'.
      * simpl in Hd'. injection Hd' as <-.
        exists obj. rewrite Nat.add_0_r. now repeat split.
      * simpl in Hd'. destruct (IHobj i d' Hd') as (obj' & Hobj' & Hrest).
        exists obj'. split; [|exact Hrest].
        replace (nextRef m + S i) with (S (nextRef m) + i) by lia.
        exact Hobj'.
    + intros r Hr. rewrite IHold by lia.
      rewrite Hheap. apply lookup_insert_ne. lia.
    + destruct IHcur as [IHsame | (i & d' & obj' & IHnew & Hd' & Hc & Hobj'
                                   & Hvalid)].
      * destruct Hcur as [Hsame | (Hnew & Hc & Herr & Hcont)].
        -- left. congruence.
        -- right. exists 0, d, obj. rewrite Nat.add_0_r.
           split; [congruence|]. now repeat split.
      * right. exists (S i), d', obj'.
        replace (nextRef m + S i) with (S (nextRef m) + i) by lia.
        now repeat split.
Qed.

(** The stored entries up to the first whose location [Uri.parse]
    refuses, and the others. *)
Lemma parse_prefix (databases : list PersistedDatabaseItem) :
  exists good rest,
    databases = good ++ rest
    /\ (forall d, d ∈ good -> Uri.parseFailure (uri d) = None)
    /\ (forall d, head rest = Some d -> Uri.parseFailure (uri d) <> None).
Proof.
  induction databases as [|d l (good & rest & Hl & Hgood & Hrest)].
  - exists [], []. split; [reflexivity|]. split.
    + intros d Hd. now apply elem_of_nil in Hd.
    + discriminate.
  - destruct (Uri.parseFailure (uri d)) as [message|] eqn:E.
    + exists [], (d :: l). split; [reflexivity|]. split.
      * intros d' Hd'. now apply elem_of_nil in Hd'.
      * intros d' [= <-]. congruence.
    + exists (d :: good), rest. split; [now rewrite Hl|]. split.
      * intros d' Hd'. apply elem_of_cons in Hd' as [-> | Hd'];
          [exact E | now apply Hgood].
      * exact Hrest.
Qed.

(** The loop goes through the entries [good], and ends at the first of
    [rest], if there is one, with the message of the outer [catch]. *)
Lemma loadPersistedDatabases_stop (fs : FileSystem)
  (current : option StateValue) (good rest : list PersistedDatabaseItem)
  (m : DatabaseManager) :
  (forall d, d ∈ good -> Uri.parseFailure (uri d) = None) ->
  (forall d, head rest = Some d -> Uri.parseFailure (uri d) <> None) ->
  let m' := loadPersistedDatabases fs current (Some <$> good ++ rest) m in
  loadedFrom current good m m'
  /\ (rest <> [] ->
      exists before,
        shown m' = before ++ [ErrorMessage "Database list loading failed: ${}"]).
Proof.
  intros Hgood Hrest m'. subst m'. rewrite fmap_app.
  destruct (loadPersistedDatabases_good fs current good (Some <$> rest) m
              Hgood) as (m1 & -> & Hloaded).
  destruct rest as [|d rest].
  - split; [exact Hloaded | intros H; now contradiction H].
  - destruct (Uri.parseFailure (uri d)) as [message|] eqn:E;
      [|now destruct (Hrest d eq_refl)].
    change (Some <$> d :: rest) with (Some d :: (Some <$> rest)).
    simpl. rewrite (loadPersistedDatabase_throws fs current d m1 message E).
    split; [exact Hloaded|]. intros _. now exists (shown m1).
Qed.

(** X18.  Loading the persisted state registers the stored databases in
    the stored order, after the items already there, whether or not
    their refresh succeeds, up to the first entry whose location
    [Uri.parse] refuses: with [good] the entries before it and [rest]
    that entry and those after it, the item list grows by one new item
    per entry of [good], each with the location parsed from its entry
    and the options stored with it, nothing is registered for [rest],
    and when [rest] is not empty the last message shown is that of the
    outer [catch].  When every location is accepted, [rest] is empty and
    every stored database is registered. *)
Theorem loadPersistedState_registers_until_failure (fs : FileSystem)
  (m : DatabaseManager) (good rest : list PersistedDatabaseItem) :
  workspaceState m !! DB_LIST = Some (DatabaseListValue (good ++ rest)) ->
  (forall d, d ∈ good -> Uri.parseFailure (uri d) = None) ->
  (forall d, head rest = Some d -> Uri.parseFailure (uri d) <> None) ->
  let m' := loadPersistedState fs m in
  _databaseItems m' = _databaseItems m ++ seq (nextRef m) (length good)
  /\ nextRef m' = nextRef m + length good
  /\ (forall i d,
        good !! i = Some d ->
        exists obj,
          heap m' !! (nextRef m + i) = Some obj
          /\ databaseUri obj = Uri.parse (uri d)
          /\ displayName (item_options obj) = options d ≫= opt_displayName
          /\ ignoreSourceArchive (item_options obj) =
               default false (options d ≫= opt_ignoreSourceArchive))
  /\ (forall r, r < nextRef m -> heap m' !! r = heap m !! r)
  /\ (rest <> [] ->
      exists before,
        shown m' = before ++ [ErrorMessage "Database list loading failed: ${}"]).
Proof.
  intros H Hgood Hrest m'. subst m'.
  rewrite (loadPersistedState_unfold fs m _ H).
  destruct (loadPersistedDatabases_stop fs (workspaceState m !! CURRENT_DB)
              good rest m Hgood Hrest)
    as ((Hitems & Hnext & Hobj & Hold & _) & Hshown).
  now repeat split.
Qed.

(** X19.  After loading, the current item is the item of a stored entry
    that the persisted current location names, and it resolved.
    Starting without a current item, whatever reference is current after
    the load is the one made for some stored entry, counted from the
    first free reference; the location stored with that entry is the
    persisted current location, the object behind the reference has the
    location parsed from it, contents and no error.  A persisted current
    location that names no stored entry leaves the registry without a
    current item. *)
Theorem loadPersistedState_current_valid (fs : FileSystem)
  (m : DatabaseManager) (databases : list PersistedDatabaseItem) :
  workspaceState m !! DB_LIST = Some (DatabaseListValue databases) ->
  _currentDatabaseItem m = None ->
  let m' := loadPersistedState fs m in
  (forall r,
      _currentDatabaseItem m' = Some r ->
      exists i d obj,
        r = nextRef m + i
        /\ databases !! i = Some d
        /\ workspaceState m !! CURRENT_DB = Some (StringValue (uri d))
        /\ heap m' !! r = Some obj
        /\ databaseUri obj = Uri.parse (uri d)
        /\ _error obj = None /\ is_Some (_contents obj))
  /\ ((forall d, d ∈ databases ->
                 workspaceState m !! CURRENT_DB <> Some (StringValue (uri d)))
      -> _currentDatabaseItem m' = None).
Proof.
  intros H Hnone m'. subst m'.
  rewrite (loadPersistedState_unfold fs m _ H).
  destruct (parse_prefix databases) as (good & rest & -> & Hgood & Hrest).
  destruct (loadPersistedDatabases_stop fs (workspaceState m !! CURRENT_DB)
              good rest m Hgood Hrest)
    as ((_ & _ & Hobj & _ & Hcur) & _).
  rewrite Hnone in Hcur. split.
  - intros r Hr.
    destruct Hcur as [Hsame | (i & d & obj & Hnew & Hd & Hc & Hheap & Herr
                               & Hcont)]; [congruence|].
    rewrite Hnew in Hr. injection Hr as <-.
    destruct (Hobj i d Hd) as (obj' & Hheap' & Huri & _).
    assert (obj' = obj) by congruence. subst obj'.
    exists i, d, obj. split; [reflexivity|].
    split; [now apply lookup_app_l_Some|]. now repeat split.
  - intros Hdangling.
    destruct Hcur as [Hsame | (i & d & obj & _ & Hd & Hc & _)];
      [exact Hsame|].
    destruct (Hdangling d); [|exact Hc].
    apply elem_of_app. left. now apply (list_elem_of_lookup_2 _ i).
Qed.

Lemma persistedList_insert_same (h : gmap nat DatabaseItemImpl) (r : nat)
  (obj obj' : DatabaseItemImpl) (items : list nat) :
  h !! r = Some obj ->
  getPersistedState obj' = getPersistedState obj ->
  persistedList (<[r := obj']> h) items = persistedList h items.
Proof.
  intros Hobj Hsame. induction items as [|a l IH]; [reflexivity|].
  change (persistedList (<[r := obj']> h) (a :: l))
    with (match getPersistedState <$> <[r := obj']> h !! a with
          | Some y => y :: persistedList (<[r := obj']> h) l
          | None => persistedList (<[r := obj']> h) l
          end).
  change (persistedList h (a :: l))
    with (match getPersistedState <$> h !! a with
          | Some y => y :: persistedList h l
          | None => persistedList h l
          end).
  rewrite IH. destruct (decide (r = a)) as [<- | Hne].
  - rewrite lookup_insert_eq, Hobj. simpl. now rewrite Hsame.
  - now rewrite lookup_insert_ne.
Qed.

Lemma refresh_getPersistedState (fs : FileSystem) (obj : DatabaseItemImpl) :
  getPersistedState (refresh_item (refresh fs obj)) = getPersistedState obj.
Proof.
  unfold refresh.
  now destruct (resolveDatabaseContents fs (databaseUri obj)) as [[c|e] log].
Qed.

Lemma inStep_refreshItem (fs : FileSystem) (item : nat) (m : DatabaseManager) :
  persistedInStep m -> persistedInStep (snd (refreshItem fs item m)).
Proof.
  intros H. unfold refreshItem.
  destruct (heap m !! item) as [obj|] eqn:E; [|exact H].
  rewrite refresh_onChanged_once. unfold persistedInStep in *. simpl.
  rewrite H. do 2 f_equal. symmetry.
  apply (persistedList_insert_same _ _ obj); [exact E|].
  apply refresh_getPersistedState.
Qed.

Lemma inStep_setCurrentDatabaseItem (fs : FileSystem) (item : option nat)
  (skipRefresh : bool) (m : DatabaseManager) :
  persistedInStep m ->
  persistedInStep (snd (setCurrentDatabaseItem fs item skipRefresh m)).
Proof.
  intros H. unfold setCurrentDatabaseItem.
  set (step := match item with
               | Some r => if negb skipRefresh then refreshItem fs r m
                           else (Returns tt, m)
               | None => (Returns tt, m)
               end).
  assert (Hstep : persistedInStep (snd step)).
  { subst step. destruct item as [r|]; [|exact H].
    destruct (negb skipRefresh); [|exact H]. now apply inStep_refreshItem. }
  destruct step as [[[]|e] m1]; simpl in *; [|exact Hstep].
  destruct (negb (bool_decide (_currentDatabaseItem m1 = item)));
    [|exact Hstep].
  unfold persistedInStep in *. simpl. unfold memento_update.
  destruct (match item with Some r => _ | None => None end).
  - now rewrite lookup_insert_ne.
  - now rewrite lookup_delete_ne.
Qed.

Lemma inStep_addDatabaseItem (item : nat) (m : DatabaseManager) :
  persistedInStep (addDatabaseItem item m).
Proof. unfold persistedInStep. simpl. apply lookup_insert_eq. Qed.

Lemma inStep_loadPersistedDatabase (fs : FileSystem)
  (current : option StateValue) (database : option PersistedDatabaseItem)
  (m : DatabaseManager) :
  persistedInStep m ->
  persistedInStep (snd (loadPersistedDatabase fs current database m)).
Proof.
  intros Hm. unfold loadPersistedDatabase.
  destruct (createDatabaseItemFromPersistedState_cases
              (default {| uri := "undefined"; options := None |} database) m)
    as [(message & _ & ->) | (fresh & _ & _ & ->)]; [exact Hm|].
  pose proof (inStep_refreshItem fs (nextRef m) _
                (inStep_addDatabaseItem (nextRef m)
                                        (snd (allocate fresh m)))) as H.
  destruct (refreshItem fs _ _) as [[[]|e] m2]; simpl in *; [|exact H].
  destruct (sameUri current (uri <$> database)); [|exact H].
  now apply inStep_setCurrentDatabaseItem.
Qed.

(** X20.  Once the persisted list is in step with the item list, every
    method keeps it so: opening (whether it succeeds or throws),
    removing, refreshing, changing the current item and loading all leave
    [databaseList] equal to the persisted state of the items listed.
    A refresh needs no write for this: what is persisted of an item, its
    location and options, is not touched by it. *)
Theorem persisted_list_stays_in_step (m : DatabaseManager) :
  persistedInStep m ->
  (forall fs uri_ options_,
      persistedInStep (snd (openDatabase fs uri_ options_ m)))
  /\ (forall item, persistedInStep (removeDatabaseItem item m))
  /\ (forall fs item, persistedInStep (snd (refreshItem fs item m)))
  /\ (forall fs item skipRefresh,
        persistedInStep (snd (setCurrentDatabaseItem fs item skipRefresh m)))
  /\ (forall fs, persistedInStep (loadPersistedState fs m)).
Proof.
  intros H. split; [|split; [|split; [|split]]].
  - intros fs u o. unfold openDatabase.
    destruct (resolveDatabaseContents fs u) as [[c|e] log]; [|exact H].
    apply inStep_addDatabaseItem.
  - intros item. unfold removeDatabaseItem, persistedInStep.
    destruct (bool_decide (_currentDatabaseItem m = Some item)); simpl;
      apply lookup_insert_eq.
  - intros fs item. now apply inStep_refreshItem.
  - intros fs item skip. now apply inStep_setCurrentDatabaseItem.
  - intros fs. unfold loadPersistedState.
    apply (loadPersistedDatabases_keeps persistedInStep); [| |exact H].
    + intros database m0. apply inStep_loadPersistedDatabase.
    + intros log m0 H0. exact H0.
Qed.

End Databases.

(** ** The properties at work on the sample disks *)

(** [/raw] holds one schema file and no dataset directory: the raw-dataset
    step would accept it, resolution throws the dataset-search error. *)
Lemma raw_dataset_not_reached_sample :
  resolveRawDataset (Disk.host sample_raw_disk) "/raw" =
    Some {| kind := RawDataset; name := "raw"; datasetUri := Uri.file "/raw";
            sourceArchiveUri := None; dbSchemeUri := None |}
  /\ resolveDatabaseContents sample_scheme (Disk.host sample_raw_disk)
       (Uri.file "/raw") =
       (Throws (InvalidDatabaseError
                  "'/raw' does not contain a dataset directory."), []).
Proof.
  apply (resolveDatabaseContents_raw_dataset_not_reached sample_scheme
           (Disk.host sample_raw_disk) (Uri.file "/raw"));
    try reflexivity.
  apply Nat.lt_0_succ.
Defined.

(** Opening a directory that is no database throws, and a find by its
    location comes back empty. *)
Lemma openDatabase_failure_not_registered :
  let m := snd (openDatabase sample_scheme (Disk.host sample_empty_disk)
                  (Uri.file "/empty") None (new_DatabaseManager ∅)) in
  fst (openDatabase sample_scheme (Disk.host sample_empty_disk)
         (Uri.file "/empty") None (new_DatabaseManager ∅)) =
    Throws (InvalidDatabaseError
              "'/empty' does not contain a dataset directory.")
  /\ _databaseItems m = []
  /\ ~ (exists item, findDatabaseItem (Uri.file "/empty") m = Some item).
Proof.
  repeat split. intros [item H]. discriminate H.
Qed.

Lemma openDatabase_failure_sample :
  let m := snd (openDatabase sample_scheme (Disk.host sample_empty_disk)
                  (Uri.file "/empty") None (sample_opened sample_scheme)) in
  resolveDatabaseContents sample_scheme (Disk.host sample_empty_disk)
    (Uri.file "/empty") =
    (Throws (InvalidDatabaseError
               "'/empty' does not contain a dataset directory."), [])
  /\ _databaseItems m = [0]
  /\ findDatabaseItem (Uri.file "/empty") m = None.
Proof.
  intros m.
  assert (H : resolveDatabaseContents sample_scheme
                (Disk.host sample_empty_disk) (Uri.file "/empty") =
              (Throws (InvalidDatabaseError
                         "'/empty' does not contain a dataset directory."),
               [])) by reflexivity.
  destruct (openDatabase_failure_registers_nothing sample_scheme
              (Disk.host sample_empty_disk) (Uri.file "/empty") None
              (sample_opened sample_scheme) _ _ H) as (_ & _ & Hitems & _ & _ & _ & Hfind).
  split; [exact H|]. split.
  - exact Hitems.
  - exact Hfind.
Defined.

(** [/db] is opened, made current, then removed: the persisted current
    location still reads [file:///db]. *)
Lemma remove_current_sample :
  let m := sample_current sample_scheme in
  _currentDatabaseItem m = Some 0
  /\ workspaceState m !! CURRENT_DB = Some (StringValue "file:///db")
  /\ _currentDatabaseItem (removeDatabaseItem 0 m) = None
  /\ workspaceState (removeDatabaseItem 0 m) !! CURRENT_DB
     = Some (StringValue "file:///db")
  /\ workspaceState (removeDatabaseItem 0 m) !! DB_LIST
     = Some (DatabaseListValue []).
Proof.
  intros m.
  assert (H : _currentDatabaseItem m = Some 0) by reflexivity.
  destruct (removeDatabaseItem_leaves_persisted_current 0 m H)
    as (H1 & H2 & H3 & _ & _).
  split; [exact H|]. split; [vm_compute; reflexivity|].
  split; [exact H1|]. split.
  - rewrite H2. vm_compute. reflexivity.
  - rewrite H3. vm_compute. reflexivity.
Defined.

(** Two and three schema files in the dataset directory give one and the
    same error: the message carries no count. *)
Lemma dbscheme_count_not_in_message :
  let two := Disk.host sample_two_schemes in
  let three := Disk.host sample_three_schemes in
  length (getDbSchemeFiles two "/db/db-test/") = 2
  /\ length (getDbSchemeFiles three "/db/db-test/") = 3
  /\ fst (resolveDatabaseContents sample_scheme two (Uri.file "/db")) =
       Throws (InvalidDatabaseError
                 "Database '/db' contains multiple QL dbschemes under '/db/db-test/'.")
  /\ fst (resolveDatabaseContents sample_scheme three (Uri.file "/db")) =
       fst (resolveDatabaseContents sample_scheme two (Uri.file "/db"))
  /\ Str.includes
       (errorMessage
          (InvalidDatabaseError
             "Database '/db' contains multiple QL dbschemes under '/db/db-test/'."))
       "2" = false.
Proof. repeat split. Qed.

Lemma schema_step_sample :
  resolveDatabaseContents sample_scheme (Disk.host sample_two_schemes)
    (Uri.file "/db") =
    (Throws (InvalidDatabaseError
               "Database '/db' contains multiple QL dbschemes under '/db/db-test/'."),
     [InformationMessage
        "Could not find source archive for database '/db'. Assuming paths are absolute."])
  /\ fst (resolveDatabaseContents sample_scheme (Disk.host sample_disk)
            (Uri.file "/db")) =
       Returns {| kind := Database; name := "db";
                  datasetUri := Uri.file "/db/db-test/";
                  sourceArchiveUri :=
                    Some (Uri.mk sample_scheme "" "/db/src.zip" "" "");
                  dbSchemeUri :=
                    Some (Uri.file "/db/db-test/test.dbscheme") |}.
Proof.
  split.
  - refine (proj1 (proj2
      (resolveDatabaseContents_schema_step sample_scheme
         (Disk.host sample_two_schemes) (Uri.file "/db")
         (Some {| kind := Database; name := "db";
                  datasetUri := Uri.file "/db/db-test/";
                  sourceArchiveUri := None; dbSchemeUri := None |})
         _ _ eq_refl eq_refl eq_refl eq_refl)) _).
    apply Nat.lt_succ_diag_r.
  - rewrite (proj1 (proj2 (proj2
      (resolveDatabaseContents_schema_step sample_scheme
         (Disk.host sample_disk) (Uri.file "/db")
         (Some {| kind := Database; name := "db";
                  datasetUri := Uri.file "/db/db-test/";
                  sourceArchiveUri :=
                    Some (Uri.mk sample_scheme "" "/db/src.zip" "" "");
                  dbSchemeUri := None |})
         _ _ eq_refl eq_refl eq_refl eq_refl))) "test.dbscheme" eq_refl).
    reflexivity.
Defined.

(** Of two colons only the first becomes an underscore, where the
    comment in the code has [:] replaced by [_]. *)
Lemma second_colon_survives :
  let item := sample_item sample_scheme sample_disk in
  sourceArchive item = Some (Uri.mk sample_scheme "" "/db/src.zip" "" "")
  /\ Uri.fragment (resolveSourceFile sample_scheme item (Some "a:b:c.py"))
     = "a_b:c.py"
  /\ Uri.fragment (resolveSourceFile sample_scheme item (Some "a:b:c.py"))
     <> spec_replaceEveryColon (Str.stripLeadingSlashes "a:b:c.py").
Proof. repeat split. discriminate. Qed.

(** The two examples of the spec: [a:b.py] in an archive, [/a/b.py] in a
    directory. *)
Lemma resolveSourceFile_samples :
  let zipped := sample_item sample_scheme sample_disk in
  let plain := sample_item sample_scheme sample_old_layout in
  sourceArchive zipped = Some (Uri.mk sample_scheme "" "/db/src.zip" "" "")
  /\ sourceArchive plain = Some (Uri.file "/db/src")
  /\ Uri.fragment (resolveSourceFile sample_scheme zipped (Some "a:b.py"))
     = "a_b.py"
  /\ Uri.path (resolveSourceFile sample_scheme plain (Some "/a/b.py"))
     = "/db/src/a/b.py".
Proof.
  intros zipped plain.
  destruct (resolveSourceFile_sanitizes sample_scheme zipped
              (Uri.mk sample_scheme "" "/db/src.zip" "" "") "a:b.py" eq_refl)
    as (_ & _ & _ & _ & Hzip & _).
  destruct (resolveSourceFile_sanitizes sample_scheme plain
              (Uri.file "/db/src") "/a/b.py" eq_refl)
    as (_ & _ & _ & _ & _ & Hdir).
  split; [reflexivity|]. split; [reflexivity|]. split.
  - rewrite (proj2 (Hzip eq_refl)). reflexivity.
  - rewrite Hdir by discriminate. reflexivity.
Defined.

(** The explorer root of the sample item is not taken to belong to it. *)
Lemma explorer_root_rejected_sample :
  let item := sample_item sample_scheme sample_disk in
  let root := Uri.mk sample_scheme "" "/" "" "/db/src.zip" in
  getExplorerUri sample_scheme item = Some root
  /\ belongsToExplorerUri sample_scheme item root = false
  /\ belongsToExplorerUri sample_scheme item
       (Uri.mk sample_scheme "" "/anything" "" "/") = true.
Proof.
  intros item root.
  destruct (belongsToExplorerUri_misses_own_archive sample_scheme eq_refl
              item root eq_refl) as (_ & Hown & Hall).
  split; [reflexivity|]. split; [exact Hown|].
  apply Hall. split; reflexivity.
Defined.

(** The scenario of the spec: only [working/db-test/]. *)
Lemma findDataset_working_fallback_sample :
  findDataset (Disk.host sample_old_layout) "/db" =
    (Returns (Uri.file "/db/working/db-test/"), []).
Proof.
  exact (proj1 (proj2 (findDataset_search_order
                         (Disk.host sample_old_layout) "/db"))
               "working/db-test/" [] eq_refl eq_refl).
Defined.

Lemma findSourceArchive_samples :
  fst (findSourceArchive sample_scheme (Disk.host sample_disk) "/db" false)
    = Returns (Some (Uri.mk sample_scheme "" "/db/src.zip" "" ""))
  /\ findSourceArchive sample_scheme (Disk.host sample_raw_disk) "/raw" true
     = (Returns None, []).
Proof.
  split.
  - exact (proj1 (findSourceArchive_first_existing sample_scheme eq_refl
                    (Disk.host sample_disk) "/db" false)).
  - reflexivity.
Defined.

(** A refresh that succeeds, and one that fails once the disk is gone. *)
Lemma refresh_samples :
  let opened := new_DatabaseItemImpl (Uri.file "/db") None sample_options in
  let good := refresh sample_scheme (Disk.host sample_disk) opened in
  let bad := refresh sample_scheme (Disk.host []) (refresh_item good) in
  _error (refresh_item good) = None
  /\ refresh_onChanged good = [refresh_item good]
  /\ _contents (refresh_item bad) = None
  /\ _error (refresh_item bad)
     = Some (InvalidDatabaseError "Database '/db' does not exist.")
  /\ fst (refresh_outcome bad)
     = Throws (InvalidDatabaseError "Database '/db' does not exist.")
  /\ refresh_onChanged bad = [refresh_item bad].
Proof.
  intros opened good bad.
  destruct (refresh_updates_then_notifies sample_scheme
              (Disk.host sample_disk) opened)
    as (Hok & _ & Hcall & _).
  destruct (refresh_updates_then_notifies sample_scheme
              (Disk.host []) (refresh_item good))
    as (_ & Hfail & Hcall' & _).
  destruct (Hok _ _ eq_refl) as (_ & Herr & _).
  destruct (Hfail (InvalidDatabaseError "Database '/db' does not exist.")
              [] eq_refl) as (Hc & He & Hout).
  split; [exact Herr|]. split; [exact Hcall|]. split; [exact Hc|].
  split; [exact He|]. split; [|exact Hcall'].
  unfold bad. now rewrite Hout.
Defined.

Lemma contents_and_error_exclusive_sample :
  let item := refresh_item
                (refresh sample_scheme (Disk.host [])
                   (sample_item sample_scheme sample_disk)) in
  reachable sample_scheme item
  /\ _contents item = None
  /\ (_contents item = None \/ _error item = None).
Proof.
  intros item.
  assert (H : reachable sample_scheme item)
    by (do 2 apply reachable_refresh; apply reachable_new).
  split; [exact H|]. split; [reflexivity|].
  exact (contents_and_error_exclusive sample_scheme item H).
Defined.

(** ** More of the properties at work on the samples *)

Lemma resolved_sample_is_database :
  let c := {| kind := Database; name := "db";
              datasetUri := Uri.file "/db/db-test/";
              sourceArchiveUri :=
                Some (Uri.mk sample_scheme "" "/db/src.zip" "" "");
              dbSchemeUri := Some (Uri.file "/db/db-test/test.dbscheme") |} in
  resolveDatabaseContents sample_scheme (Disk.host sample_disk)
    (Uri.file "/db") = (Returns c, [])
  /\ kind c = Database
  /\ name c = Path.basename "/db"
  /\ exists f, getDbSchemeFiles (Disk.host sample_disk) "/db/db-test/" = [f].
Proof.
  intros c.
  assert (H : resolveDatabaseContents sample_scheme (Disk.host sample_disk)
                (Uri.file "/db") = (Returns c, [])) by reflexivity.
  destruct (resolveDatabaseContents_returns_database sample_scheme
              _ _ _ _ H) as (_ & _ & Hk & Hn & _ & _ & f & Hf & _).
  split; [exact H|]. split; [exact Hk|]. split; [exact Hn|].
  exists f. exact Hf.
Defined.

Lemma old_layout_resolves :
  fst (resolveDatabaseContents sample_scheme (Disk.host sample_old_layout)
         (Uri.file "/db")) =
    Returns {| kind := Database; name := "db";
               datasetUri := Uri.file "/db/working/db-test/";
               sourceArchiveUri := Some (Uri.file "/db/src");
               dbSchemeUri :=
                 Some (Uri.file "/db/working/db-test/test.dbscheme") |}.
Proof.
  rewrite (resolveDatabaseContents_resolves sample_scheme
             (Disk.host sample_old_layout) (Uri.file "/db")
             "working/db-test/" "test.dbscheme" []
             eq_refl eq_refl (or_intror (conj eq_refl eq_refl)) eq_refl).
  reflexivity.
Defined.

Lemma resolution_errors_samples :
  fst (resolveDatabaseContents sample_scheme (Disk.host sample_disk)
         (Uri.mk "http" "host" "/db" "" "")) =
    Throws (Error "Database URI scheme 'http' not supported; only 'file' URIs are supported.")
  /\ exists m,
       fst (resolveDatabaseContents sample_scheme
              (Disk.host sample_two_schemes) (Uri.file "/db"))
       = Throws (InvalidDatabaseError m)
       /\ Str.includes m "/db" = true.
Proof.
  split; [reflexivity|].
  destruct (resolveDatabaseContents sample_scheme
              (Disk.host sample_two_schemes) (Uri.file "/db"))
    as [[c|e] log] eqn:E; [discriminate E|].
  destruct (resolveDatabaseContents_throws sample_scheme _ _ _ _ E)
    as [_ Hfile].
  destruct (Hfile eq_refl) as [[m ->] Hm].
  exists m. split; [reflexivity | exact Hm].
Defined.

(** With and without [/db/src.zip], the same dataset and schema. *)
Lemma sources_do_not_matter_sample :
  let with_zip := Disk.host sample_disk in
  let without := Disk.host sample_without_sources in
  match fst (resolveDatabaseContents sample_scheme with_zip (Uri.file "/db")),
        fst (resolveDatabaseContents sample_scheme without (Uri.file "/db"))
  with
  | Returns c1, Returns c2 =>
      sourceArchiveUri c1 <> sourceArchiveUri c2
      /\ datasetUri c1 = datasetUri c2 /\ dbSchemeUri c1 = dbSchemeUri c2
  | _, _ => False
  end.
Proof.
  intros with_zip without.
  assert (Hschemes : forall dir, glob with_zip "*.dbscheme" dir
                                 = glob without "*.dbscheme" dir).
  { intros dir. subst with_zip without.
    unfold Disk.host, glob, Disk.globSegments, Disk.entries,
      sample_disk, sample_without_sources.
    change (Str.splitSlash "*.dbscheme") with ["*.dbscheme"].
    unfold List.find.
    destruct (String.eqb "/db" (Disk.key dir)); [reflexivity|].
    destruct (String.eqb "/db/db-test" (Disk.key dir)); reflexivity. }
  pose proof (resolveDatabaseContents_whatever_the_sources sample_scheme
                with_zip without (Uri.file "/db")
                eq_refl eq_refl Hschemes eq_refl eq_refl) as H.
  destruct (fst (resolveDatabaseContents sample_scheme with_zip
                   (Uri.file "/db"))) as [c1|e1] eqn:E1;
    destruct (fst (resolveDatabaseContents sample_scheme without
                     (Uri.file "/db"))) as [c2|e2] eqn:E2;
    try exact H; try discriminate E1; try discriminate E2.
  destruct H as (_ & _ & Hd & Hs).
  split; [|split; assumption].
  vm_compute in E1, E2. injection E1 as <-. injection E2 as <-. discriminate.
Defined.

(** The item of [/db] is called [db] while the database is there, and
    still when it is gone. *)
Lemma item_name_sample :
  let item := sample_item sample_scheme sample_disk in
  let gone := refresh_item (refresh sample_scheme (Disk.host []) item) in
  is_Some (_contents item)
  /\ _contents gone = None
  /\ item_name item = "db"
  /\ item_name gone = "db".
Proof.
  intros item gone.
  assert (Hown : contentsOfOwnLocation sample_scheme item).
  { right. exists (Disk.host sample_disk). eexists _, _.
    split; vm_compute; reflexivity. }
  destruct (item_name_after_refresh sample_scheme (Disk.host []) item Hown)
    as (Hsame & Hname & _).
  split; [vm_compute; eauto|]. split; [vm_compute; reflexivity|].
  split; [vm_compute; reflexivity|].
  etransitivity; [exact Hname | vm_compute; reflexivity].
Defined.

Lemma invalid_item_takes_absolute_paths :
  let item := refresh_item
                (refresh sample_scheme (Disk.host [])
                   (sample_item sample_scheme sample_disk)) in
  _contents item = None
  /\ resolveSourceFile sample_scheme item (Some "/home/a.py")
     = Uri.file "/home/a.py"
  /\ getExplorerUri sample_scheme item = None.
Proof.
  intros item.
  assert (H : ignoreSourceArchive (item_options item) = true
              \/ _contents item = None) by (right; reflexivity).
  destruct (resolveSourceFile_without_archive sample_scheme item H)
    as (_ & Hfile & _ & Hroot & _).
  split; [reflexivity|]. split; [apply Hfile | exact Hroot].
Defined.

Lemma leading_slashes_sample :
  let item := sample_item sample_scheme sample_disk in
  resolveSourceFile sample_scheme item (Some "///a/b.py")
  = resolveSourceFile sample_scheme item (Some "a/b.py").
Proof.
  intros item.
  exact (resolveSourceFile_leading_slashes sample_scheme item _ 3 "a/b.py"
           eq_refl).
Defined.

Lemma persisted_state_round_trip_sample :
  let item := sample_item sample_scheme sample_disk in
  let created := createDatabaseItemFromPersistedState
                   (getPersistedState item) (new_DatabaseManager ∅) in
  uri (getPersistedState item) = "file:///db"
  /\ fst created = Returns 0
  /\ heap (snd created) !! 0 =
       Some (new_DatabaseItemImpl (Uri.file "/db") None sample_options).
Proof.
  intros item created.
  destruct (persisted_state_round_trip item "/db" (new_DatabaseManager ∅)
              eq_refl eq_refl) as (Huri & Hcreated & Hobj & _).
  split; [exact Huri|]. split; [exact Hcreated | exact Hobj].
Defined.

Lemma registry_invariant_sample :
  registry_reachable sample_scheme (sample_current sample_scheme)
  /\ registryInvariant (sample_current sample_scheme).
Proof.
  assert (H : registry_reachable sample_scheme (sample_current sample_scheme)).
  { apply reached_setCurrentDatabaseItem.
    - apply reached_openDatabase, reached_new.
    - intros r [= <-]. vm_compute. eauto. }
  split; [exact H|].
  exact (registry_invariant sample_scheme _ H).
Defined.

(** [/db] opened a second time is listed twice; a find returns the first. *)
Lemma openDatabase_twice_sample :
  let m := sample_opened sample_scheme in
  let m' := snd (openDatabase sample_scheme (Disk.host sample_disk)
                   (Uri.file "/db") None m) in
  _databaseItems m' = [0; 1]
  /\ findDatabaseItem (Uri.file "/db") m' = Some 0.
Proof.
  intros m m'.
  assert (Hinv : registryInvariant m).
  { apply invariant_openDatabase, invariant_new. }
  destruct (resolveDatabaseContents sample_scheme (Disk.host sample_disk)
              (Uri.file "/db")) as [[c|e] log] eqn:E; [|discriminate E].
  destruct (openDatabase_registers sample_scheme (Disk.host sample_disk)
              (Uri.file "/db") None m c log Hinv E)
    as (_ & _ & Hitems & _ & _ & _ & Hfind).
  split; [exact Hitems | exact Hfind].
Defined.

Lemma openDatabase_testproj_sample :
  exists obj,
    heap (snd (openDatabase sample_scheme (Disk.host sample_testproj)
                 (Uri.file "/t.testproj") None (new_DatabaseManager ∅)))
      !! 0 = Some obj
    /\ ignoreSourceArchive (item_options obj) = true
    /\ sourceArchive obj = None
    /\ (sourceArchiveUri <$> _contents obj)
       = Some (Some (Uri.file "/t.testproj/src")).
Proof.
  destruct (resolveDatabaseContents sample_scheme (Disk.host sample_testproj)
              (Uri.file "/t.testproj")) as [[c|e] log] eqn:E;
    [|discriminate E].
  destruct (openDatabase_options sample_scheme (Disk.host sample_testproj)
              (Uri.file "/t.testproj") None (new_DatabaseManager ∅) c log E)
    as (obj & Hobj & _ & Hig & Hnone & _).
  exists obj. split; [exact Hobj|]. split; [exact Hig|].
  split; [exact (Hnone Hig)|].
  vm_compute in Hobj. injection Hobj as <-. reflexivity.
Defined.


Lemma findDatabaseItem_after_remove_sample :
  findDatabaseItem (Uri.file "/db") (sample_opened sample_scheme) = Some 0
  /\ findDatabaseItem (Uri.file "/db")
       (removeDatabaseItem 0 (sample_opened sample_scheme)) = None.
Proof.
  split; [reflexivity|].
  apply (proj2 (findDatabaseItem_after_remove 0 (sample_opened sample_scheme)
                  (Uri.file "/db"))).
  - vm_compute. apply NoDup_singleton.
  - intros r obj Hr Hne. vm_compute in Hr.
    apply list_elem_of_singleton in Hr. contradiction.
Defined.

(** The disk is gone: [/db] cannot be made current. *)
Lemma setCurrentDatabaseItem_rejects_sample :
  let r := setCurrentDatabaseItem sample_scheme (Disk.host []) (Some 0) false
             (sample_opened sample_scheme) in
  fst r = Throws (InvalidDatabaseError "Database '/db' does not exist.")
  /\ _currentDatabaseItem (snd r) = None
  /\ workspaceState (snd r) !! CURRENT_DB = None.
Proof.
  intros r.
  destruct (heap (sample_opened sample_scheme) !! 0) as [obj|] eqn:Hobj;
    [|discriminate Hobj].
  assert (Hres : resolveDatabaseContents sample_scheme (Disk.host [])
                   (databaseUri obj)
                 = (Throws (InvalidDatabaseError
                              "Database '/db' does not exist."), [])).
  { vm_compute in Hobj. injection Hobj as <-. reflexivity. }
  destruct (setCurrentDatabaseItem_rejects_invalid sample_scheme
              (Disk.host []) 0 obj (sample_opened sample_scheme) _ _
              Hobj Hres) as (Hout & Hcur & Hws & _).
  split; [exact Hout|]. split; [exact Hcur|].
  fold r in Hws. rewrite Hws. reflexivity.
Defined.

Lemma clear_current_sample :
  let m' := snd (setCurrentDatabaseItem sample_scheme (Disk.host sample_disk)
                   None true (sample_current sample_scheme)) in
  _currentDatabaseItem m' = None
  /\ workspaceState m' !! CURRENT_DB = None.
Proof.
  intros m'.
  destruct (setCurrentDatabaseItem_skipRefresh sample_scheme
              (Disk.host sample_disk) None (sample_current sample_scheme))
    as (_ & _ & Hchange).
  destruct (Hchange ltac:(discriminate)) as (Hcur & Hkey & _).
  split; [exact Hcur | exact Hkey].
Defined.

Lemma setCurrentDatabaseItem_valid_sample :
  _currentDatabaseItem (sample_current sample_scheme) = Some 0
  /\ workspaceState (sample_current sample_scheme) !! CURRENT_DB
     = Some (StringValue "file:///db").
Proof.
  destruct (heap (sample_opened sample_scheme) !! 0) as [obj|] eqn:Hobj;
    [|discriminate Hobj].
  destruct (resolveDatabaseContents sample_scheme (Disk.host sample_disk)
              (databaseUri obj)) as [[c|e] log] eqn:E.
  2: { vm_compute in Hobj. injection Hobj as <-. discriminate E. }
  destruct (setCurrentDatabaseItem_valid sample_scheme
              (Disk.host sample_disk) 0 obj (sample_opened sample_scheme)
              c log Hobj E ltac:(discriminate)) as (_ & Hcur & Hkey & _).
  split; [exact Hcur|].
  unfold sample_current. rewrite Hkey.
  vm_compute in Hobj. injection Hobj as <-. reflexivity.
Defined.

(** Loading the stored state on the sample disk: both entries are
    registered, the one that is gone with its error, and [/db] is
    current.  Of the list with a location that is refused, only the
    entry before it is registered. *)
Lemma loadPersistedState_sample :
  let m := loadPersistedState sample_scheme (Disk.host sample_disk)
             (new_DatabaseManager sample_stored) in
  let stopped := loadPersistedState sample_scheme (Disk.host sample_disk)
                   (new_DatabaseManager sample_stored_malformed) in
  _databaseItems m = [0; 1]
  /\ (_error <$> heap m !! 0)
     = Some (Some (InvalidDatabaseError "Database '/gone' does not exist."))
  /\ (item_name <$> heap m !! 1) = Some "mine"
  /\ _databaseItems stopped = [0]
  /\ last (shown stopped)
     = Some (ErrorMessage "Database list loading failed: ${}").
Proof.
  intros m stopped.
  destruct (loadPersistedState_registers_until_failure sample_scheme
              (Disk.host sample_disk) (new_DatabaseManager sample_stored)
              [ {| uri := "file:///gone"; options := None |};
                {| uri := "file:///db";
                   options := Some {| opt_displayName := Some "mine";
                                      opt_ignoreSourceArchive := None |} |} ]
              [] eq_refl) as (Hitems & _).
  { intros d Hd. apply elem_of_cons in Hd as [-> | Hd]; [reflexivity|].
    apply elem_of_cons in Hd as [-> | Hd]; [reflexivity|].
    now apply elem_of_nil in Hd. }
  { discriminate. }
  destruct (loadPersistedState_registers_until_failure sample_scheme
              (Disk.host sample_disk)
              (new_DatabaseManager sample_stored_malformed)
              [ {| uri := "file:///db"; options := None |} ]
              [ {| uri := "file:////db"; options := None |};
                {| uri := "file:///db"; options := None |} ]
              eq_refl) as (Hstopped & _ & _ & _ & Hshown).
  { intros d Hd. apply elem_of_cons in Hd as [-> | Hd]; [reflexivity|].
    now apply elem_of_nil in Hd. }
  { intros d [= <-]. discriminate. }
  destruct (Hshown ltac:(discriminate)) as (before & Hbefore).
  split; [exact Hitems|]. split; [reflexivity|]. split; [reflexivity|].
  split; [exact Hstopped|].
  fold stopped in Hbefore. rewrite Hbefore. apply last_snoc.
Defined.

Lemma loadPersistedState_current_sample :
  let m := loadPersistedState sample_scheme (Disk.host sample_disk)
             (new_DatabaseManager sample_stored) in
  let gone := loadPersistedState sample_scheme (Disk.host [])
                (new_DatabaseManager sample_stored) in
  _currentDatabaseItem m = Some 1
  /\ (exists obj, heap m !! 1 = Some obj
                  /\ databaseUri obj = Uri.file "/db"
                  /\ _error obj = None)
  /\ _currentDatabaseItem gone = None.
Proof.
  intros m gone.
  destruct (loadPersistedState_current_valid sample_scheme
              (Disk.host sample_disk) (new_DatabaseManager sample_stored)
              _ eq_refl eq_refl) as (Hvalid & _).
  assert (Hcur : _currentDatabaseItem m = Some 1) by reflexivity.
  destruct (Hvalid 1 Hcur) as (i & d & obj & Hi & Hd & _ & Hobj & Huri
                               & Herr & _).
  assert (i = 1) by (simpl in Hi; lia). subst i.
  simpl in Hd. injection Hd as <-.
  split; [exact Hcur|]. split; [|reflexivity].
  exists obj. split; [exact Hobj|]. split; [exact Huri | exact Herr].
Defined.

Lemma list_change_sample :
  let m' := removeDatabaseItem 0 (sample_opened sample_scheme) in
  exists s,
    last (fired m') = Some (DidChangeDatabaseItem None, s)
    /\ seen_databaseItems s = []
    /\ seen_workspaceState s !! DB_LIST = Some (DatabaseListValue []).
Proof.
  intros m'.
  destruct (proj2 (list_change_persisted_then_fired 0
                     (sample_opened sample_scheme))) as (Hfired & Hseen & _).
  exists (see m'). fold m' in Hfired, Hseen.
  split; [rewrite Hfired; apply last_snoc|].
  split; [reflexivity | rewrite Hseen; reflexivity].
Defined.

Lemma persisted_list_in_step_sample :
  let m := sample_opened sample_scheme in
  persistedInStep m
  /\ persistedInStep (snd (refreshItem sample_scheme (Disk.host []) 0 m))
  /\ workspaceState (snd (refreshItem sample_scheme (Disk.host []) 0 m))
       !! DB_LIST
     = Some (DatabaseListValue
               [ {| uri := "file:///db";
                    options := Some {| opt_displayName := None;
                                       opt_ignoreSourceArchive := Some false |}
                 |} ]).
Proof.
  intros m.
  assert (H : persistedInStep m) by (vm_compute; reflexivity).
  destruct (persisted_list_stays_in_step sample_scheme m H)
    as (_ & _ & Hrefresh & _).
  split; [exact H|]. split; [apply Hrefresh|].
  vm_compute. reflexivity.
Defined.
